(** * Task recommender: cleaning, TF-IDF similarity and ranking

    A shallow embedding of [recommender_sys_for_input.py]:
    [cleaner], [dataframe_column_to_cosine_sim], [get_recommendations] and
    [initialize_frame_for_recommender], with the pandas frames they mutate
    kept in a store of objects, and the properties of the specification
    stated over them. *)

From Stdlib Require Import Reals Lra DecimalString.
From stdpp Require Import gmap strings list sorting.
From Stdlib Require Import Strings.Ascii.

(** * Text *)

(** Python strings are modelled as strings of 8-bit characters (code points
    below 256).  On that range [str.lower] only moves the letters [A-Z] into
    the range kept by the regular expression of [cleaner]; every other
    character it changes stays outside [A-Za-z0-9].  Texts with code points
    from 256 on are not modelled: [str.lower] turns some of them into ASCII
    letters (U+212A into [k]).  What is proved of [lower] as such is stated
    for ASCII texts. *)

Module Text.

Definition code (c : ascii) : nat := nat_of_ascii c.

Definition is_upper (c : ascii) : bool :=
  (65 <=? code c) && (code c <=? 90).
Definition is_lower (c : ascii) : bool :=
  (97 <=? code c) && (code c <=? 122).
Definition is_digit (c : ascii) : bool :=
  (48 <=? code c) && (code c <=? 57).

(** The class [[A-Za-z0-9]] of [re.sub('[^A-Za-z0-9]', ' ', text)]. *)
Definition is_alnum (c : ascii) : bool :=
  is_upper c || is_lower c || is_digit c.

(** What [str.split()] and [str.isspace] take for white space, below 256. *)
Definition is_space (c : ascii) : bool :=
  bool_decide (code c ∈ [9; 10; 11; 12; 13; 28; 29; 30; 31; 32; 133; 160]).

Definition lower_char (c : ascii) : ascii :=
  if is_upper c then ascii_of_nat (code c + 32) else c.

Fixpoint map_chars (f : ascii → ascii) (s : string) : string :=
  match s with
  | EmptyString => EmptyString
  | String c s' => String (f c) (map_chars f s')
  end.

Fixpoint all_chars (p : ascii → bool) (s : string) : bool :=
  match s with
  | EmptyString => true
  | String c s' => p c && all_chars p s'
  end.

(** [str.lower()] *)
Definition lower : string → string := map_chars lower_char.

(** [re.sub('[^A-Za-z0-9]', ' ', text)] *)
Definition blank (c : ascii) : ascii := if is_alnum c then c else " "%char.
Definition blank_non_alnum : string → string := map_chars blank.

(** [str.split()]: the maximal runs of characters that are not white
    space.  [split_aux s] is the run that starts [s] (empty when [s] starts
    with white space) and the runs after it. *)
Definition push (w : string) (ws : list string) : list string :=
  match w with EmptyString => ws | _ => w :: ws end.

Fixpoint split_aux (s : string) : string * list string :=
  match s with
  | EmptyString => (EmptyString, [])
  | String c s' =>
      let '(w, ws) := split_aux s' in
      if is_space c then (EmptyString, push w ws) else (String c w, ws)
  end.

Definition split (s : string) : list string :=
  let '(w, ws) := split_aux s in push w ws.

(** [" ".join(tokens)] *)
Definition join (ts : list string) : string := String.concat " " ts.

(** [len(s) == 0], the falsity of a Python string *)
Definition is_empty (s : string) : bool :=
  match s with EmptyString => true | _ => false end.

End Text.

(** * The NLTK collaborators of [cleaner] *)

Module Nltk.

(** Modelled from the spec: [nltk.word_tokenize], of the NLTK library and
    not under src/.  The specification has it tokenize "on
    whitespace/word boundaries".  [cleaner] only passes it text made of
    lower-case letters, digits and blanks, where the Treebank tokenizer
    behind it has no punctuation to separate: it splits on white space,
    after parting the contractions of its table that are written without an
    apostrophe. *)
Definition contractions : list (string * list string) :=
  [ ("cannot", ["can"; "not"]);
    ("gimme", ["gim"; "me"]);
    ("gonna", ["gon"; "na"]);
    ("gotta", ["got"; "ta"]);
    ("lemme", ["lem"; "me"]);
    ("wanna", ["wan"; "na"]) ].

Definition part (t : string) : list string :=
  match list_find (λ e, e.1 = t) contractions with
  | Some (_, (_, parts)) => parts
  | None => [t]
  end.

Definition word_tokenize (s : string) : list string :=
  flat_map part (Text.split s).

End Nltk.

Section Cleaner.

(** [stopwords.words('english')]: the stop-word table of the NLTK corpus,
    which is data outside the repository; the development holds for every
    table. *)
Variable stopwords : list string.

(** [cleaner(text)], on the string that [str(text)] yields. *)
Definition cleaner (text : string) : string :=
  let text := Text.lower text in
  let text := Text.blank_non_alnum text in
  let tokens := Nltk.word_tokenize text in
  let tokens := filter (λ token, token ∉ stopwords) tokens in
  Text.join tokens.

End Cleaner.

(** * Cell values and frames *)

(** A cell of a frame: an integer, a string, or the missing value that
    pandas fills in when frames with different columns are appended. *)
Inductive value : Type :=
| VInt (z : Z)
| VStr (s : string)
| VNaN.

#[global] Instance value_eq_dec : EqDecision value.
Proof. solve_decision. Defined.

(** [str(x)] *)
Definition py_str (v : value) : string :=
  match v with
  | VInt z => NilZero.string_of_int (Z.to_int z)
  | VStr s => s
  | VNaN => "nan"
  end.

(** A [pandas.DataFrame], column by column as pandas stores it: the row
    labels, and for every column its label and its cells.  The frames of the
    program have distinct column labels and columns as long as the index
    ([wf_frame]). *)
Record DataFrame : Type := mkFrame {
  index : list Z;
  cols : list (string * list value)
}.

Definition columns (d : DataFrame) : list string := (cols d).*1.
Definition nrows (d : DataFrame) : nat := length (index d).

Definition wf_frame (d : DataFrame) : Prop :=
  NoDup (columns d) ∧ Forall (λ c, length c.2 = nrows d) (cols d).

(** The exceptions the program raises or lets through, one constructor for
    each place that raises. *)
Inductive error : Type :=
| WrongTopN                 (* ValueError('Wrong value for top_n. ...') *)
| TooShortInput (title : string)
                            (* IOError('You have entered a too short ...') *)
| SameTask (title : string) (* ValueError('Inserted same task ...') *)
| ShapeMismatch             (* ValueError of pd.DataFrame: n columns passed,
                               passed data had 4 columns *)
| KeyError (key : string)   (* df[column], indices[title], df[[...]] *)
| IndexError                (* cosine_sim[idx], .iloc[...] *)
| NotAString                (* AttributeError of the vectorizer on a document
                               that has no .lower *)
| EmptyVocabulary           (* ValueError of TfidfVectorizer.fit_transform *)
| AmbiguousTruth            (* ValueError of numpy when rows are compared *)
| NoObject.                 (* a reference without an object in the store;
                               Python has none *)

Inductive exn_class : Type :=
| ValueError_ | OSError_ | KeyError_ | IndexError_ | AttributeError_
| NoClass.

(** The Python class of each exception ([IOError] is [OSError]). *)
Definition class_of (e : error) : exn_class :=
  match e with
  | WrongTopN | SameTask _ | ShapeMismatch | EmptyVocabulary
  | AmbiguousTruth => ValueError_
  | TooShortInput _ => OSError_
  | KeyError _ => KeyError_
  | IndexError => IndexError_
  | NotAString => AttributeError_
  | NoObject => NoClass
  end.

Inductive result (A : Type) : Type :=
| Ok (a : A)
| Raise (e : error).
Arguments Ok {A} a.
Arguments Raise {A} e.

#[global] Instance result_ret : MRet result := λ A a, Ok a.
#[global] Instance result_bind : MBind result := λ A B f r,
  match r with Ok a => f a | Raise e => Raise e end.

(** ** The pandas operations the program calls

    pandas is a library outside the repository; each operation is written
    from what pandas documents for it. *)

Module Pandas.

(** [df[label]] *)
Definition getitem (d : DataFrame) (label : string) : result (list value) :=
  match list_find (λ c, c.1 = label) (cols d) with
  | Some (_, (_, cells)) => Ok cells
  | None => Raise (KeyError label)
  end.

(** [df[label] = cells]: overwrites the column, or adds it as the last. *)
Definition setitem (d : DataFrame) (label : string) (cells : list value)
  : DataFrame :=
  match list_find (λ c, c.1 = label) (cols d) with
  | Some (k, _) => mkFrame (index d) (<[k := (label, cells)]> (cols d))
  | None => mkFrame (index d) (cols d ++ [(label, cells)])
  end.

(** [RangeIndex(n)]: the row labels 0, ..., n-1 *)
Definition range_index (n : nat) : list Z := Z.of_nat <$> seq 0 n.

(** [df.reset_index(inplace=True, drop=True)], as a new state of [df] *)
Definition reset_index (d : DataFrame) : DataFrame :=
  mkFrame (range_index (nrows d)) (cols d).

(** [pd.DataFrame(data, columns=labels, index=idx)] for [data] a list of
    rows: every row must have as many cells as there are labels. *)
Definition of_rows (data : list (list value)) (labels : list string)
    (idx : list Z) : result DataFrame :=
  if bool_decide (Forall (λ row, length row = length labels) data
                  ∧ length idx = length data)
  then Ok (mkFrame idx
             (imap (λ k label, (label, omap (λ row, row !! k) data)) labels))
  else Raise ShapeMismatch.

Definition cells_or_nan (d : DataFrame) (label : string) : list value :=
  match getitem d label with
  | Ok cells => cells
  | Raise _ => replicate (nrows d) VNaN
  end.

(** [df.append(other, ignore_index=True)], of pandas before 2.0: a NEW
    frame, the rows of [other] after those of [df] and the index renumbered;
    [df] itself is not changed.  Frames with the same column labels are
    joined column by column; otherwise columns are matched by label and
    completed with NaN. *)
Definition append (d other : DataFrame) : DataFrame :=
  mkFrame (range_index (nrows d + nrows other))
    (if decide (columns d = columns other)
     then zip_with (λ c c', (c.1, c.2 ++ c'.2)) (cols d) (cols other)
     else (λ label, (label, cells_or_nan d label ++ cells_or_nan other label))
            <$> (columns d ++ filter (λ l, l ∉ columns d) (columns other))).

(** [df[[l1, ..., ln]]] *)
Definition project (d : DataFrame) (labels : list string)
  : result DataFrame :=
  cs ← mapM (λ label, cells ← getitem d label; Ok (label, cells)) labels;
  Ok (mkFrame (index d) cs).

(** [l[p] for p in positions], or nothing when one is out of range *)
Definition pick {A} (l : list A) (positions : list nat) : option (list A) :=
  mapM (λ p, l !! p) positions.

(** [df.iloc[positions]] *)
Definition iloc (d : DataFrame) (positions : list nat) : result DataFrame :=
  match pick (index d) positions,
        mapM (λ c, cells ← pick c.2 positions; Some (c.1, cells)) (cols d)
  with
  | Some idx, Some cs => Ok (mkFrame idx cs)
  | _, _ => Raise IndexError
  end.

(** What [pd.Series(values, index=labels)[title]] returns: the value at
    the one matching label, or a Series of the values at every matching
    label. *)
Inductive lookup : Type :=
| Scalar (v : Z)
| Several (vs : list Z).

Definition series_getitem (values : list Z) (labels : list value)
    (title : string) : result lookup :=
  match (filter (λ e, e.1 = VStr title) (zip labels values)).*2 with
  | [] => Raise (KeyError title)
  | [v] => Ok (Scalar v)
  | vs => Ok (Several vs)
  end.

End Pandas.

(** * The store of frames *)

(** Frames are Python objects handled by reference: a call can change the
    frame of its caller.  A computation takes the store and returns the new
    store with a result or an exception; what was mutated before an
    exception stays mutated. *)
Definition loc : Type := nat.
Definition M (A : Type) : Type :=
  gmap loc DataFrame → gmap loc DataFrame * result A.

#[global] Instance M_ret : MRet M := λ A a h, (h, Ok a).
#[global] Instance M_bind : MBind M := λ A B f m h,
  match m h with
  | (h', Ok a) => f a h'
  | (h', Raise e) => (h', Raise e)
  end.

Definition raise {A} (e : error) : M A := λ h, (h, Raise e).
Definition lift {A} (r : result A) : M A := λ h, (h, r).
Definition load (l : loc) : M DataFrame := λ h,
  match h !! l with
  | Some d => (h, Ok d)
  | None => (h, Raise NoObject)
  end.
Definition store (l : loc) (d : DataFrame) : M unit := λ h,
  (<[l := d]> h, Ok ()).
Definition alloc (d : DataFrame) : M loc := λ h,
  let l := fresh (dom h) in (<[l := d]> h, Ok l).

(** * The scikit-learn and numpy collaborators *)

(** Scores are real numbers: the arithmetic is exact, the rounding of
    floating point is not modelled. *)
#[global] Instance Rlt_decision (x y : R) : Decision (x < y)%R := Rlt_dec x y.

Module Sklearn.

Local Open Scope R_scope.

Definition dot (u v : list R) : R := foldr Rplus 0 (zip_with Rmult u v).

(** Modelled from the spec: [sklearn.metrics.pairwise.linear_kernel], of
    scikit-learn and not under src/.  [linear_kernel(X, Y)] is the matrix of
    the dot products of the rows of [X] with the rows of [Y], "the full
    pairwise cosine similarity (dot product of TF-IDF rows)". *)
Definition linear_kernel (X Y : list (list R)) : list (list R) :=
  (λ x, (λ y, dot x y) <$> Y) <$> X.

Definition norm_l2 (v : list R) : R := sqrt (dot v v).

(** Modelled from the spec: the L2 normalisation that ends
    [TfidfVectorizer.fit_transform], of scikit-learn and not under src/
    ("rows are already L2-normalized by standard TF-IDF convention"); a row
    of norm zero, of a document without a term, is left as it is. *)
Definition normalize (v : list R) : list R :=
  if Req_dec_T (norm_l2 v) 0 then v else (λ x, x / norm_l2 v) <$> v.

Section Vectorizer.

(** The stop-word table that [stop_words='english'] selects: data of
    scikit-learn, outside the repository. *)
Variable stop_words : list string.

(** The default analyzer of the vectorizer: lower-case the document,
    take the runs of two or more word characters (the token pattern
    [\b\w\w+\b]; letters, digits and the underscore on ASCII text), drop
    the stop words.  Beyond ASCII the pattern of the vectorizer also takes
    the letters of other alphabets, which this model drops: what is proved
    of the terms of a text is stated for ASCII texts, as the cleaned texts
    of the program are. *)
Definition is_word_char (c : ascii) : bool :=
  Text.is_alnum c || bool_decide (c = "_"%char).

Definition analyze (doc : string) : list string :=
  let doc := Text.lower doc in
  let runs :=
    Text.split
      (Text.map_chars (λ c, if is_word_char c then c else " "%char) doc) in
  let tokens := filter (λ t, (2 ≤ String.length t)%nat) runs in
  filter (λ t, t ∉ stop_words) tokens.

(** The fitted vocabulary: the distinct terms of the corpus, sorted. *)
Definition vocabulary (corpus : list string) : list string :=
  merge_sort String.le (remove_dups (flat_map analyze corpus)).

Definition count (term : string) (tokens : list string) : nat :=
  length (filter (λ t, t = term) tokens).

Definition doc_freq (term : string) (corpus : list string) : nat :=
  length (filter (λ doc, term ∈ analyze doc) corpus).

(** The smoothed inverse document frequency,
    [ln((1 + n) / (1 + df)) + 1]. *)
Definition idf (n df : nat) : R := ln ((1 + INR n) / (1 + INR df)) + 1.

Definition tfidf_row (vocab corpus : list string) (doc : string)
  : list R :=
  (λ term, INR (count term (analyze doc))
           * idf (length corpus) (doc_freq term corpus)) <$> vocab.

(** Modelled from the spec:
    [TfidfVectorizer(stop_words='english').fit_transform(corpus)], of
    scikit-learn and not under src/: "a TF-IDF matrix with one row per
    corpus entry", the rows L2-normalised; it refuses a corpus that leaves
    it no term. *)
Definition fit_transform (corpus : list string) : result (list (list R)) :=
  match vocabulary corpus with
  | [] => Raise EmptyVocabulary
  | vocab => Ok ((λ doc, normalize (tfidf_row vocab corpus doc)) <$> corpus)
  end.

End Vectorizer.

End Sklearn.

Module Numpy.

(** [a[i]] for an integer [i]: negative positions count from the end. *)
Definition row {A} (a : list A) (i : Z) : result A :=
  let n := Z.of_nat (length a) in
  let k := if bool_decide (0 ≤ i)%Z then i else (i + n)%Z in
  match bool_decide (0 ≤ k)%Z, a !! Z.to_nat k with
  | true, Some r => Ok r
  | _, _ => Raise IndexError
  end.

End Numpy.

(** * The program *)

(** [sorted(l, key=lambda x: x[1], reverse=True)]: the pairs by decreasing
    score; the sort is stable, so pairs of equal score keep their order. *)
Fixpoint insert_desc (x : nat * R) (l : list (nat * R)) : list (nat * R) :=
  match l with
  | [] => [x]
  | y :: l' => if decide (x.2 < y.2)%R then y :: insert_desc x l' else x :: l
  end.

Definition sorted_desc (l : list (nat * R)) : list (nat * R) :=
  foldr insert_desc [] l.

(** [list(enumerate(l))] *)
Definition enumerate {A} (l : list A) : list (nat * A) := imap (λ i x, (i, x)) l.

Definition as_string (v : value) : result string :=
  match v with VStr s => Ok s | _ => Raise NotAString end.

Section Program.

(** The two stop-word tables, of NLTK and of scikit-learn. *)
Variable stopwords : list string.
Variable stop_words : list string.

(** [dataframe_column_to_cosine_sim(df, column)].  The elapsed time it
    prints is not modelled. *)
Definition dataframe_column_to_cosine_sim (df : loc) (column : string)
  : M (list value * list (list R) * list (list R)) :=
  d ← load df;
  corpus ← lift (Pandas.getitem d column);
  docs ← lift (mapM as_string corpus);
  tfidf_matrix ← lift (Sklearn.fit_transform stop_words docs);
  let cosine_sim := Sklearn.linear_kernel tfidf_matrix tfidf_matrix in
  mret (corpus, tfidf_matrix, cosine_sim).

(** The end of [get_recommendations], from the scores of the located
    row. *)
Definition recommend_from (scores : list R) (d : DataFrame)
    (column : string) (top_n : Z) : result DataFrame :=
  let sim_scores := enumerate scores in
  let sim_scores := sorted_desc sim_scores in
  let sim_scores := take (Z.to_nat top_n) (drop 1 sim_scores) in
  let item_indices := sim_scores.*1 in
  p ← Pandas.project d ["ID"; column; "Deadline"];
  Pandas.iloc p item_indices.

(** [get_recommendations(title, cosine_sim, df, column, top_n)].  When
    [title] labels several rows, [indices[title]] is a Series, numpy selects
    all these rows and [sorted] compares whole rows, which numpy refuses
    unless a row is a single score. *)
Definition get_recommendations (title : string)
    (cosine_sim : list (list R)) (df : loc) (column : string) (top_n : Z)
  : M DataFrame :=
  if negb (bool_decide (top_n < 20)%Z && bool_decide (top_n > 1)%Z)
  then raise WrongTopN
  else
    d ← load df;
    store df (Pandas.reset_index d);;
    d ← load df;
    labels ← lift (Pandas.getitem d column);
    idx ← lift (Pandas.series_getitem (index d) labels title);
    match idx with
    | Pandas.Scalar idx =>
        scores ← lift (Numpy.row cosine_sim idx);
        lift (recommend_from scores d column top_n)
    | Pandas.Several idx =>
        rows ← lift (mapM (Numpy.row cosine_sim) idx);
        match mapM (λ r, match r with [x] => Some x | _ => None end) rows with
        | Some scores => lift (recommend_from scores d column top_n)
        | None => raise AmbiguousTruth
        end
    end.

(** The row of a new query, [[999, title, '0', 'You want to?']]. *)
Definition query_row (title : string) : list value :=
  [VInt 999; VStr title; VStr "0"; VStr "You want to?"].

(** [initialize_frame_for_recommender(df, title, column, top_n,
    new_string)].  [df = df.append(...)] binds the local name to the new
    frame that [append] returns. *)
Definition initialize_frame_for_recommender (df : loc)
    (title column : string) (top_n : Z) (new_string : bool)
  : M DataFrame :=
  '(cleaned_title, df) ←
    (if new_string then
       let cleaned_title := cleaner stopwords title in
       if bool_decide (length (Text.split cleaned_title) < 2)%nat
       then raise (TooShortInput title)
       else
         d ← load df;
         new_row ← lift (Pandas.of_rows [query_row title] (columns d) [0%Z]);
         df ← alloc (Pandas.append d new_row);
         mret (cleaned_title, df)
     else mret (EmptyString, df));
  d ← load df;
  cells ← lift (Pandas.getitem d column);
  store df (Pandas.setitem d "cleaned_column"
              ((λ x, VStr (cleaner stopwords (py_str x))) <$> cells));;
  d ← load df;
  cleaned ← lift (Pandas.getitem d "cleaned_column");
  if negb (Text.is_empty cleaned_title)
     && bool_decide (VStr cleaned_title ∈ removelast cleaned)
  then raise (SameTask title)
  else
    '(corpus, tfidf_matrix, cosine_sim) ←
      dataframe_column_to_cosine_sim df "cleaned_column";
    get_recommendations title cosine_sim df column top_n.

End Program.

(** * Notions used to state the properties *)

Module Notions.
Import Text.

Definition no_space (c : ascii) : bool := negb (is_space c).
Definition low_alnum (c : ascii) : bool := is_lower c || is_digit c.
Definition normal (c : ascii) : bool :=
  low_alnum c || bool_decide (c = " "%char).

(** A token: not empty and free of white space. *)
Definition token (t : string) : Prop :=
  t ≠ EmptyString ∧ all_chars no_space t.

(** What [word_tokenize] returns for a token: tokens of lower-case letters
    and digits that it would return unchanged. *)
Definition settled (t : string) : Prop :=
  token t ∧ all_chars low_alnum t ∧ Nltk.part t = [t].


(** The exceptions that come from the libraries, as opposed to the three
    [raise] statements of the program. *)
Definition library_error (e : error) : Prop :=
  match e with
  | WrongTopN | TooShortInput _ | SameTask _ => False
  | _ => True
  end.

(** [fails_only r P]: if [r] is an exception, it satisfies [P]. *)
Definition fails_only {A} (r : result A) (P : error → Prop) : Prop :=
  ∀ e, r = Raise e → P e.

(** [raises_only m P]: every exception [m] raises satisfies [P]. *)
Definition raises_only {A} (m : M A) (P : error → Prop) : Prop :=
  ∀ h h' e, m h = (h', Raise e) → P e.


(** The position of the first column labelled [label]. *)
Definition position (d : DataFrame) (label : string) : option nat :=
  fst <$> list_find (λ c, c.1 = label) (cols d).

(** The frame that [df.append(new_row, ignore_index=True)] returns for the
    row of a new query: each of its four cells under one column. *)
Definition with_query_row (d : DataFrame) (title : string) : DataFrame :=
  mkFrame (Pandas.range_index (nrows d + 1))
    (zip_with (λ c v, (c.1, c.2 ++ [v])) (cols d) (query_row title)).

(** The cells of the cleaned column. *)
Definition cleaned_cells (stopwords : list string) (cells : list value)
  : list value :=
  (λ x, VStr (cleaner stopwords (py_str x))) <$> cells.


(** [preserves l m]: running [m] leaves the object at [l] as it is. *)
Definition preserves {A} (l : loc) (m : M A) : Prop :=
  ∀ h h' r, m h = (h', r) → h' !! l = h !! l.


(** The positions that [get_recommendations] selects from the scores of
    the located row. *)
Definition item_indices (scores : list R) (top_n : Z) : list nat :=
  (take (Z.to_nat top_n) (drop 1 (sorted_desc (enumerate scores)))).*1.

(** [first_in_rank scores idx]: no score is greater than the one at [idx],
    and those before [idx] are smaller: the pair of [idx] is sorted
    first. *)
Definition first_in_rank (scores : list R) (idx : nat) : Prop :=
  ∃ s, scores !! idx = Some s
       ∧ ∀ j x, scores !! j = Some x →
                (j < idx → (x < s)%R) ∧ (idx < j → (x <= s)%R).


(** The entry [m[i][j]] of a matrix, when there is one. *)
Definition cell (m : list (list R)) (i j : nat) : option R :=
  m !! i ≫= λ row, row !! j.

(** A vector of zeros. *)
Definition zero_vector (v : list R) : Prop := Forall (λ x, x = 0%R) v.


(** [has_row d row]: some row of the frame has the cells [row], column by
    column. *)
Definition has_row (d : DataFrame) (row : list value) : Prop :=
  ∃ i, Forall2 (λ c v, c.2 !! i = Some v) (cols d) row.

(** A text of ASCII characters.  On these the models of [str.lower] and of
    the analyzer of the vectorizer are those of Python character by
    character; beyond them Python has letters that the models do not
    know. *)
Definition ascii_only (s : string) : bool :=
  all_chars (λ c, bool_decide (code c < 128)) s.

(** [terms_differ stop_words doc doc']: one of the two texts keeps a term,
    of the analyzer of the vectorizer, that the other lacks. *)
Definition terms_differ (stop_words : list string) (doc doc' : string)
  : Prop :=
  ∃ t, (t ∈ Sklearn.analyze stop_words doc
        ∧ t ∉ Sklearn.analyze stop_words doc')
       ∨ (t ∈ Sklearn.analyze stop_words doc'
          ∧ t ∉ Sklearn.analyze stop_words doc).

End Notions.

(** * Tables to run the program on *)

Module Example.

(** The table of the end-to-end scenarios of the specification, with a
    fourth column as a new query needs. *)
Definition tasks : DataFrame :=
  mkFrame [0; 1; 2]%Z
    [ ("ID", [VInt 1; VInt 2; VInt 3]);
      ("Task", [VStr "fix the server outage";
                VStr "server outage repair needed";
                VStr "plan holiday party"]);
      ("Deadline", [VStr "2024-01-01"; VStr "2024-01-02";
                    VStr "2024-01-03"]);
      ("Comment", [VStr "ops"; VStr "ops"; VStr "office"]) ].

(** A table whose first two tasks differ as texts and are the same once
    cleaned. *)
Definition reworded : DataFrame :=
  mkFrame [0; 1; 2]%Z
    [ ("ID", [VInt 1; VInt 2; VInt 3]);
      ("Task", [VStr "fix the server outage";
                VStr "Fix the server outage!";
                VStr "plan holiday party"]);
      ("Deadline", [VStr "2024-01-01"; VStr "2024-01-02";
                    VStr "2024-01-03"]) ].

(** The similarities of [reworded]: its first two rows have the same
    vector, the third shares no term with them. *)
Definition reworded_sim : list (list R) :=
  [ [1; 1; 0]; [1; 1; 0]; [0; 0; 1] ]%R.

(** The similarities of three rows without a common term. *)
Definition unrelated_sim : list (list R) :=
  [ [1; 0; 0]; [0; 1; 0]; [0; 0; 1] ]%R.

(** The table with the data model of the specification and no more: the
    three columns ID, text and Deadline. *)
Definition three_columns : DataFrame :=
  mkFrame [0; 1]%Z
    [ ("ID", [VInt 1; VInt 2]);
      ("Task", [VStr "fix the server outage"; VStr "plan holiday party"]);
      ("Deadline", [VStr "2024-01-01"; VStr "2024-01-03"]) ].

(** A store with one frame, at 0. *)
Definition store_of (d : DataFrame) : gmap loc DataFrame := {[ 0 := d ]}.

(** Some of the stop words of the two tables. *)
Definition some_stopwords : list string :=
  ["the"; "a"; "an"; "to"; "you"; "me"; "can"; "not"; "is"; "of"].

(** The text column of [tasks], and the matrix that the vectorizer returns
    for it. *)
Definition task_cells : list value :=
  [VStr "fix the server outage"; VStr "server outage repair needed";
   VStr "plan holiday party"].

Definition task_docs : list string :=
  ["fix the server outage"; "server outage repair needed";
   "plan holiday party"].

Definition task_tfidf : list (list R) :=
  (λ doc, Sklearn.normalize
            (Sklearn.tfidf_row some_stopwords
               (Sklearn.vocabulary some_stopwords task_docs) task_docs doc))
    <$> task_docs.

(** The matrix that the vectorizer returns for a column of texts. *)
Definition tfidf_of (docs : list string) : list (list R) :=
  (λ doc, Sklearn.normalize
            (Sklearn.tfidf_row some_stopwords
               (Sklearn.vocabulary some_stopwords docs) docs doc))
    <$> docs.

Definition reworded_docs : list string :=
  ["fix the server outage"; "Fix the server outage!"; "plan holiday party"].

(** A table with a text of stop words only. *)
Definition memo : DataFrame :=
  mkFrame [0; 1]%Z
    [ ("ID", [VInt 1; VInt 2]);
      ("Task", [VStr "fix the server outage"; VStr "not to me"]);
      ("Deadline", [VStr "2024-01-01"; VStr "2024-01-03"]) ].

Definition memo_docs : list string := ["fix the server outage"; "not to me"].

(** A table in which two rows have the same text. *)
Definition twice : DataFrame :=
  mkFrame [0; 1; 2]%Z
    [ ("ID", [VInt 1; VInt 2; VInt 3]);
      ("Task", [VStr "fix the server outage"; VStr "plan holiday party";
                VStr "fix the server outage"]);
      ("Deadline", [VStr "2024-01-01"; VStr "2024-01-02";
                    VStr "2024-01-03"]) ].

(** A table without the column Deadline. *)
Definition no_deadline : DataFrame :=
  mkFrame [0; 1]%Z
    [ ("ID", [VInt 1; VInt 2]);
      ("Task", [VStr "fix the server outage"; VStr "plan holiday party"]) ].

End Example.

(** Closed decidable facts are settled by evaluation. *)
Ltac by_computation := apply (bool_decide_unpack _); vm_compute; exact I.

(** * Properties of the text operations *)

Module TextFacts.
Import Text Notions.

Ltac by_cases_on c :=
  destruct c as [[] [] [] [] [] [] [] []]; vm_compute; done.

Lemma blank_lower_normal c : normal (blank (lower_char c)).
Proof. by_cases_on c. Qed.

Lemma normal_fixed c : normal c → blank (lower_char c) = c.
Proof. by_cases_on c. Qed.

Lemma normal_no_space c : normal c → no_space c → low_alnum c.
Proof. by_cases_on c. Qed.

Lemma low_alnum_normal c : low_alnum c → normal c.
Proof. by_cases_on c. Qed.

Lemma low_alnum_no_space c : low_alnum c → no_space c.
Proof. by_cases_on c. Qed.

Lemma app_empty_l (s : string) : EmptyString +:+ s = s.
Proof. reflexivity. Qed.

Lemma app_cons c (t s : string) : String c t +:+ s = String c (t +:+ s).
Proof. reflexivity. Qed.

Lemma app_empty_r (t : string) : t +:+ EmptyString = t.
Proof. induction t as [|c t IH]; [done|]. by rewrite app_cons, IH. Qed.

Lemma all_chars_app (p : ascii → bool) s1 s2 :
  all_chars p (s1 +:+ s2) ↔ all_chars p s1 ∧ all_chars p s2.
Proof.
  induction s1 as [|c s1 IH]; [rewrite app_empty_l; simpl; tauto|].
  rewrite app_cons. simpl. rewrite !andb_True, IH. tauto.
Qed.

Lemma all_chars_impl (p q : ascii → bool) s :
  (∀ c, p c → q c) → all_chars p s → all_chars q s.
Proof.
  intros Hpq. induction s as [|c s IH]; simpl; [done|].
  rewrite !andb_True. intros [Hc Hs]. auto.
Qed.

Lemma all_chars_map (p : ascii → bool) (f : ascii → ascii) s :
  (∀ c, p (f c)) → all_chars p (map_chars f s).
Proof.
  intros Hp. induction s as [|c s IH]; simpl; [done|].
  rewrite andb_True. auto.
Qed.

Lemma map_chars_compose (f g : ascii → ascii) s :
  map_chars f (map_chars g s) = map_chars (f ∘ g) s.
Proof. induction s as [|c s IH]; simpl; [done|]. by rewrite IH. Qed.

Lemma map_chars_fixed (p : ascii → bool) (f : ascii → ascii) s :
  (∀ c, p c → f c = c) → all_chars p s → map_chars f s = s.
Proof.
  intros Hf. induction s as [|c s IH]; simpl; [done|].
  rewrite andb_True. intros [Hc Hs]. by rewrite Hf, IH.
Qed.

(** The text that [cleaner] tokenizes has lower-case letters, digits and
    blanks only, and such text is left alone by the first two steps. *)
Lemma normalised_normal x : all_chars normal (blank_non_alnum (lower x)).
Proof.
  unfold blank_non_alnum, lower. rewrite map_chars_compose.
  apply all_chars_map. intros c. apply blank_lower_normal.
Qed.

Lemma normal_normalised s :
  all_chars normal s → blank_non_alnum (lower s) = s.
Proof.
  intros Hs. unfold blank_non_alnum, lower. rewrite map_chars_compose.
  eapply map_chars_fixed; [|done]. intros c. apply normal_fixed.
Qed.

Lemma Forall_push (P : string → Prop) w ws :
  (w ≠ EmptyString → P w) → Forall P ws → Forall P (push w ws).
Proof. destruct w; simpl; [done|]. intros Hw Hws. constructor; auto. Qed.

(** Every run that [split] returns is a token, and its characters are
    characters of the text. *)
Lemma split_aux_spec (p : ascii → bool) s w ws :
  split_aux s = (w, ws) →
  all_chars no_space w ∧ Forall token ws
  ∧ (all_chars p s → all_chars p w ∧ Forall (all_chars p) ws).
Proof.
  revert w ws. induction s as [|c s IH]; simpl; intros w ws Hs.
  { by simplify_eq. }
  destruct (split_aux s) as [w' ws'].
  destruct (IH _ _ eq_refl) as (Hw & Hws & Hp). rewrite andb_True.
  destruct (is_space c) eqn:Hc; simplify_eq; simpl.
  - split_and!; [done| |].
    + apply Forall_push; [|done]. by split.
    + intros [_ Hs]. destruct (Hp Hs). split; [done|].
      by apply Forall_push.
  - unfold no_space at 1. rewrite Hc. simpl. split_and!; [done..|].
    rewrite andb_True. intros [Hpc Hs]. destruct (Hp Hs). by split.
Qed.

Lemma split_tokens s : Forall token (split s).
Proof.
  unfold split. destruct (split_aux s) as [w ws] eqn:Hs.
  destruct (split_aux_spec no_space _ _ _ Hs) as (Hw & Hws & _).
  apply Forall_push; [|done]. by split.
Qed.

Lemma split_all_chars (p : ascii → bool) s : all_chars p s → Forall (all_chars p) (split s).
Proof.
  unfold split. destruct (split_aux s) as [w ws] eqn:Hs. intros Hp.
  destruct (split_aux_spec p _ _ _ Hs) as (_ & _ & H).
  destruct (H Hp). by apply Forall_push.
Qed.

Lemma split_aux_app t s :
  all_chars no_space t →
  split_aux (t +:+ s) = ((t +:+ (split_aux s).1), (split_aux s).2).
Proof.
  induction t as [|c t IH]; simpl.
  { rewrite !app_empty_l. by destruct (split_aux s). }
  rewrite andb_True. intros [Hc Ht]. rewrite !app_cons. simpl.
  rewrite (IH Ht). unfold no_space in Hc. by destruct (is_space c).
Qed.

(** Splitting what [join] made of tokens gives the tokens back. *)
Lemma join_cons t t' ts :
  join (t :: t' :: ts) = t +:+ String " " (join (t' :: ts)).
Proof. reflexivity. Qed.

Lemma split_join ts : Forall token ts → split (join ts) = ts.
Proof.
  induction 1 as [|t ts [Ht1 Ht2] Hts IH]; [done|].
  destruct ts as [|t' ts].
  - change (join [t]) with t. rewrite <-(app_empty_r t) at 1.
    unfold split. rewrite split_aux_app by done. simpl.
    rewrite app_empty_r. by destruct t.
  - rewrite join_cons. unfold split in *. rewrite split_aux_app by done.
    simpl. destruct (split_aux (join (t' :: ts))) as [w ws].
    simpl. rewrite app_empty_r, IH. by destruct t.
Qed.

Lemma join_all_chars (p : ascii → bool) ts :
  p " "%char → Forall (all_chars p) ts → all_chars p (join ts).
Proof.
  intros Hsp. induction 1 as [|t ts Ht Hts IH]; [done|].
  destruct ts as [|t' ts]; [done|]. rewrite join_cons.
  apply all_chars_app. split; [done|]. simpl. by rewrite andb_True.
Qed.

End TextFacts.

(** * Cleaning *)

Section CleanerFacts.
Import Text Notions TextFacts.

Variable stopwords : list string.

Lemma part_cases t :
  Nltk.part t = [t] ∨ t ∈ Nltk.contractions.*1.
Proof.
  unfold Nltk.part. simpl.
  destruct (decide ("cannot" = t)) as [<-|]; [right; set_solver|].
  destruct (decide ("gimme" = t)) as [<-|]; [right; set_solver|].
  destruct (decide ("gonna" = t)) as [<-|]; [right; set_solver|].
  destruct (decide ("gotta" = t)) as [<-|]; [right; set_solver|].
  destruct (decide ("lemme" = t)) as [<-|]; [right; set_solver|].
  destruct (decide ("wanna" = t)) as [<-|]; [right; set_solver|].
  by left.
Qed.

Lemma contractions_settled :
  Forall (λ e, Forall (λ t, bool_decide (t ≠ EmptyString)
                            && all_chars low_alnum t
                            && bool_decide (Nltk.part t = [t])) e.2)
    Nltk.contractions.
Proof. repeat constructor. Qed.

Lemma part_settled t :
  token t → all_chars low_alnum t → Forall settled (Nltk.part t).
Proof.
  intros Ht Hl. destruct (part_cases t) as [Hp|Hk].
  { rewrite Hp. apply Forall_singleton. by split_and!. }
  apply list_elem_of_fmap in Hk as ([k parts] & -> & Hk).
  pose proof contractions_settled as H.
  eapply Forall_forall in H; [|done]. simpl in *.
  assert (Nltk.part k = parts) as ->.
  { clear -Hk. unfold Nltk.contractions in Hk.
    repeat (apply elem_of_cons in Hk as [Hk|Hk]; [by simplify_eq|]).
    by apply elem_of_nil in Hk. }
  eapply Forall_impl; [done|]. intros t'. simpl.
  rewrite !andb_True, !bool_decide_spec. intros [[? ?] ?].
  unfold settled, token. split_and!; [done| |done|done].
  eapply all_chars_impl; [|done]. apply low_alnum_no_space.
Qed.

Lemma word_tokenize_settled x :
  Forall settled (Nltk.word_tokenize (blank_non_alnum (lower x))).
Proof.
  unfold Nltk.word_tokenize.
  pose proof (split_tokens (blank_non_alnum (lower x))) as Htok.
  pose proof (split_all_chars normal _ (normalised_normal x)) as Hnorm.
  induction Htok as [|t ts [Ht1 Ht2] Hts IH]; simpl; [done|].
  apply Forall_cons in Hnorm as [Hn Hnorm]. apply Forall_app. split; [|auto].
  apply part_settled; [done|]. clear -Ht2 Hn.
  induction t as [|c t IH]; simpl in *; [done|].
  rewrite !andb_True in *. destruct Ht2, Hn.
  split; [by apply normal_no_space|auto].
Qed.

Lemma word_tokenize_join ts :
  Forall settled ts → Nltk.word_tokenize (join ts) = ts.
Proof.
  intros Hts. unfold Nltk.word_tokenize. rewrite split_join.
  - induction Hts as [|t ts Ht _ IH]; simpl; [done|].
    destruct Ht as (_ & _ & Ht). by rewrite Ht, IH.
  - eapply Forall_impl; [done|]. intros t Ht. by destruct Ht as (? & _).
Qed.

Lemma cleaner_join ts :
  Forall settled ts → Forall (λ t, t ∉ stopwords) ts →
  cleaner stopwords (join ts) = join ts.
Proof.
  intros Hts Hns. unfold cleaner. rewrite normal_normalised.
  - rewrite word_tokenize_join by done. f_equal.
    induction Hns as [|t ts Ht _ IH]; [done|].
    apply Forall_cons in Hts as [_ Hts].
    rewrite filter_cons_True by done. by rewrite IH.
  - apply join_all_chars; [done|]. eapply Forall_impl; [exact Hts|].
    intros t Ht. destruct Ht as (_ & Ht & _). eapply all_chars_impl; [|done].
    apply low_alnum_normal.
Qed.

Lemma cleaner_tokens x :
  ∃ ts, cleaner stopwords x = join ts
        ∧ Forall settled ts ∧ Forall (λ t, t ∉ stopwords) ts.
Proof.
  eexists. split; [reflexivity|]. split.
  - apply Forall_forall. intros t [_ Ht]%list_elem_of_filter.
    pose proof (word_tokenize_settled x) as H.
    by eapply Forall_forall in H.
  - apply Forall_forall. by intros t [? _]%list_elem_of_filter.
Qed.

(** C5. Cleaning is idempotent: [cleaner(cleaner(x)) == cleaner(x)], for
    every text [x], whatever the stop-word table; in particular for
    the texts made of letters, digits and stop words. *)
Theorem cleaner_idempotent (x : string) :
  cleaner stopwords (cleaner stopwords x) = cleaner stopwords x.
Proof.
  destruct (cleaner_tokens x) as (ts & -> & Hts & Hns).
  by apply cleaner_join.
Qed.

(** The cleaned text splits back into its tokens. *)
Lemma split_cleaner x :
  ∃ ts, cleaner stopwords x = join ts ∧ split (cleaner stopwords x) = ts.
Proof.
  destruct (cleaner_tokens x) as (ts & Hx & Hts & _).
  exists ts. split; [done|]. rewrite Hx. apply split_join.
  eapply Forall_impl; [done|]. intros t Ht. by destruct Ht as (? & _).
Qed.

End CleanerFacts.

(** * Which exceptions a computation can raise *)

Module Raises.
Import Notions.

Lemma fails_only_ok {A} (a : A) P : fails_only (Ok a) P.
Proof. by intros e ?. Qed.

Lemma fails_only_raise {A} e (P : error → Prop) :
  P e → fails_only (@Raise A e) P.
Proof. intros He e' ?. by simplify_eq. Qed.

Lemma fails_only_bind {A B} (r : result A) (f : A → result B) P :
  fails_only r P → (∀ a, fails_only (f a) P) → fails_only (r ≫= f) P.
Proof.
  intros Hr Hf e. destruct r as [a|e']; simpl; [apply Hf|].
  intros ?; simplify_eq. by apply Hr.
Qed.

Lemma fails_only_mapM {A B} (f : A → result B) l P :
  (∀ x, fails_only (f x) P) → fails_only (mapM f l) P.
Proof.
  intros Hf. induction l as [|x l IH]; simpl; [apply fails_only_ok|].
  apply fails_only_bind; [done|]. intros b.
  apply fails_only_bind; [done|]. intros k. apply fails_only_ok.
Qed.

Lemma fails_only_impl {A} (r : result A) (P Q : error → Prop) :
  (∀ e, P e → Q e) → fails_only r P → fails_only r Q.
Proof. intros HPQ Hr e He. auto. Qed.

Lemma raises_only_impl {A} (m : M A) (P Q : error → Prop) :
  (∀ e, P e → Q e) → raises_only m P → raises_only m Q.
Proof. intros HPQ Hm h h' e He. eauto. Qed.

Lemma raises_only_ret {A} (a : A) P : raises_only (mret a) P.
Proof. by intros h h' e ?. Qed.

Lemma raises_only_raise {A} e (P : error → Prop) :
  P e → raises_only (@raise A e) P.
Proof. intros He h h' e'. unfold raise. intros ?. by simplify_eq. Qed.

Lemma raises_only_lift {A} (r : result A) P :
  fails_only r P → raises_only (lift r) P.
Proof. intros Hr h h' e. unfold lift. intros ?. apply Hr. by simplify_eq. Qed.

Lemma raises_only_load l (P : error → Prop) :
  P NoObject → raises_only (load l) P.
Proof.
  intros HP h h' e. unfold load. destruct (h !! l); intros ?; by simplify_eq.
Qed.

Lemma raises_only_store l d P : raises_only (store l d) P.
Proof. by intros h h' e ?. Qed.

Lemma raises_only_alloc d P : raises_only (alloc d) P.
Proof. by intros h h' e ?. Qed.

Lemma raises_only_bind {A B} (m : M A) (f : A → M B) P :
  raises_only m P → (∀ a, raises_only (f a) P) → raises_only (m ≫= f) P.
Proof.
  intros Hm Hf h h' e. unfold mbind, M_bind.
  destruct (m h) as [h1 [a|e1]] eqn:Hmh.
  - apply Hf.
  - intros ?; simplify_eq. by eapply Hm.
Qed.

(** ** The exceptions of the library operations *)

Lemma getitem_fails d label : fails_only (Pandas.getitem d label) library_error.
Proof.
  unfold Pandas.getitem. destruct (list_find _ _) as [[? [? ?]]|].
  - apply fails_only_ok.
  - by apply fails_only_raise.
Qed.

Lemma of_rows_fails data labels idx :
  fails_only (Pandas.of_rows data labels idx) library_error.
Proof.
  unfold Pandas.of_rows. case_bool_decide.
  - apply fails_only_ok.
  - by apply fails_only_raise.
Qed.

Lemma project_fails d labels :
  fails_only (Pandas.project d labels) library_error.
Proof.
  unfold Pandas.project. apply fails_only_bind; [|intros; apply fails_only_ok].
  apply fails_only_mapM. intros label.
  apply fails_only_bind; [apply getitem_fails|intros; apply fails_only_ok].
Qed.

Lemma iloc_fails d positions :
  fails_only (Pandas.iloc d positions) library_error.
Proof.
  unfold Pandas.iloc.
  destruct (Pandas.pick _ _); [destruct (mapM _ _)|];
    first [apply fails_only_ok | by apply fails_only_raise].
Qed.

Lemma series_getitem_fails values labels title :
  fails_only (Pandas.series_getitem values labels title) library_error.
Proof.
  unfold Pandas.series_getitem. destruct (_.*2) as [|? [|? ?]];
    first [apply fails_only_ok | by apply fails_only_raise].
Qed.

Lemma row_fails {A} (a : list A) i : fails_only (Numpy.row a i) library_error.
Proof.
  unfold Numpy.row. repeat case_match;
    first [apply fails_only_ok | by apply fails_only_raise].
Qed.

Lemma as_string_fails v : fails_only (as_string v) library_error.
Proof.
  destruct v; first [apply fails_only_ok | by apply fails_only_raise].
Qed.

Lemma fit_transform_fails stop_words corpus :
  fails_only (Sklearn.fit_transform stop_words corpus) library_error.
Proof.
  unfold Sklearn.fit_transform. destruct (Sklearn.vocabulary _ _);
    first [apply fails_only_ok | by apply fails_only_raise].
Qed.

Lemma recommend_from_fails scores d column top_n :
  fails_only (recommend_from scores d column top_n) library_error.
Proof.
  unfold recommend_from. apply fails_only_bind; [apply project_fails|].
  intros p. apply iloc_fails.
Qed.

Create HintDb fails.
#[export] Hint Resolve fails_only_ok getitem_fails of_rows_fails project_fails
  iloc_fails series_getitem_fails row_fails as_string_fails
  fit_transform_fails recommend_from_fails fails_only_mapM : fails.

(** [raises_with HP] bounds the exceptions of a computation by [P], from
    [HP : ∀ e, library_error e → P e]. *)
Ltac raises_step HP :=
  first
    [ apply raises_only_bind; [|intros ?]
    | apply raises_only_ret
    | apply raises_only_store
    | apply raises_only_alloc
    | apply raises_only_load; solve [by apply HP | simpl; auto]
    | apply raises_only_raise; solve [done | simpl; auto]
    | apply raises_only_lift; eapply fails_only_impl; [exact HP|];
      solve [eauto with fails]
    | match goal with
      | |- raises_only (match ?x with _ => _ end) _ => destruct x
      end ].

Ltac raises_with HP := repeat raises_step HP.

(** The collaborators of [dataframe_column_to_cosine_sim] raise all its
    exceptions. *)
Lemma dataframe_column_to_cosine_sim_raises stop_words df column :
  raises_only (dataframe_column_to_cosine_sim stop_words df column)
    library_error.
Proof.
  unfold dataframe_column_to_cosine_sim.
  raises_with (λ e (H : library_error e), H).
Qed.

(** Apart from the rejection of [top_n], so do those of
    [get_recommendations]. *)
Lemma get_recommendations_raises title cosine_sim df column top_n :
  raises_only (get_recommendations title cosine_sim df column top_n)
    (λ e, e = WrongTopN ∨ library_error e).
Proof.
  unfold get_recommendations.
  raises_with (λ e (H : library_error e),
                 (or_intror H : e = WrongTopN ∨ library_error e)).
Qed.

Lemma get_recommendations_raises_valid title cosine_sim df column top_n :
  (1 < top_n < 20)%Z →
  raises_only (get_recommendations title cosine_sim df column top_n)
    library_error.
Proof.
  intros Htop h h' e Hrun.
  destruct (get_recommendations_raises _ _ _ _ _ _ _ _ Hrun) as [->|]; [|done].
  revert Hrun. unfold get_recommendations.
  rewrite !bool_decide_true by lia. simpl. intros Hrun.
  match type of Hrun with
  | ?m h = _ => assert (raises_only m library_error) as Hr
  end; [|by apply Hr in Hrun].
  raises_with (λ e (H : library_error e), H).
Qed.

(** The last step of [initialize_frame_for_recommender]. *)
Lemma delegate_raises stop_words df title column top_n (P : error → Prop) :
  P WrongTopN → (∀ e, library_error e → P e) →
  raises_only
    ('(_, _, cosine_sim) ←
       dataframe_column_to_cosine_sim stop_words df "cleaned_column";
     get_recommendations title cosine_sim df column top_n) P.
Proof.
  intros HP1 HP2. apply raises_only_bind.
  - eapply raises_only_impl; [|apply dataframe_column_to_cosine_sim_raises].
    done.
  - intros [[? ?] cosine_sim].
    eapply raises_only_impl; [|apply get_recommendations_raises].
    intros e [->|?]; auto.
Qed.

Ltac raises_all HP :=
  repeat first [ by apply delegate_raises | raises_step HP ].

End Raises.

(** * Facts about frames *)

Module PandasFacts.
Import Notions.

Lemma of_rows_query title labels :
  Pandas.of_rows [query_row title] labels [0%Z]
  = if decide (length labels = 4)
    then Ok (mkFrame [0%Z] (zip labels ((λ v, [v]) <$> query_row title)))
    else Raise ShapeMismatch.
Proof.
  unfold Pandas.of_rows. case_decide as Hl.
  - rewrite bool_decide_true.
    + by destruct labels as [|? [|? [|? [|? [|]]]]].
    + split; [|done]. apply Forall_singleton. by rewrite Hl.
  - rewrite bool_decide_false; [done|]. intros [H _].
    rewrite Forall_singleton in H. unfold query_row in H. simpl in H. lia.
Qed.

Lemma append_query d title :
  length (cols d) = 4 →
  Pandas.append d
    (mkFrame [0%Z] (zip (columns d) ((λ v, [v]) <$> query_row title)))
  = with_query_row d title.
Proof.
  destruct d as [idx [|[c0 v0] [|[c1 v1] [|[c2 v2] [|[c3 v3] [|]]]]]];
    try done.
  intros _. unfold Pandas.append, with_query_row. simpl.
  by rewrite decide_True.
Qed.

Section Find.
Context {A : Type} (P : A → Prop) `{∀ x, Decision (P x)}.

Lemma find_insert_hit l k x y :
  list_find P l = Some (k, x) → P y → list_find P (<[k:=y]> l) = Some (k, y).
Proof.
  revert k. induction l as [|z l IH]; intros k; simpl; [done|].
  case_decide as Hz.
  - intros ? Hy; simplify_eq. simpl. by rewrite decide_True.
  - destruct (list_find P l) as [[k' x']|] eqn:Hl; simpl; [|done].
    intros ? Hy; simplify_eq. simpl. rewrite decide_False by done.
    by erewrite IH.
Qed.

Lemma find_insert_miss l k y :
  (∀ x, l !! k = Some x → ¬ P x) → ¬ P y →
  list_find P (<[k:=y]> l) = list_find P l.
Proof.
  revert k. induction l as [|z l IH]; intros k Hk Hy; simpl; [done|].
  destruct k as [|k]; simpl.
  - specialize (Hk z eq_refl). by rewrite !decide_False.
  - case_decide; [done|]. by rewrite IH.
Qed.

Lemma find_snoc_miss l y :
  list_find P l = None → P y → list_find P (l ++ [y]) = Some (length l, y).
Proof.
  induction l as [|z l IH]; simpl.
  - intros _ Hy. by rewrite decide_True.
  - case_decide; [done|]. destruct (list_find P l); [done|].
    intros _ Hy. by rewrite IH.
Qed.

Lemma find_snoc_other l y :
  ¬ P y → list_find P (l ++ [y]) = list_find P l.
Proof.
  intros Hy. induction l as [|z l IH]; simpl.
  - by rewrite decide_False.
  - case_decide; [done|]. by rewrite IH.
Qed.

Lemma find_lookup l k x : list_find P l = Some (k, x) → l !! k = Some x ∧ P x.
Proof. intros Hf. apply list_find_Some in Hf. by destruct Hf as (? & ? & _). Qed.
End Find.

Lemma getitem_setitem_eq d label cells :
  Pandas.getitem (Pandas.setitem d label cells) label = Ok cells.
Proof.
  unfold Pandas.getitem, Pandas.setitem.
  destruct (list_find _ (cols d)) as [[k x]|] eqn:Hf; simpl.
  - by erewrite find_insert_hit.
  - by rewrite find_snoc_miss.
Qed.

Lemma getitem_setitem_ne d label label' cells :
  label ≠ label' →
  Pandas.getitem (Pandas.setitem d label cells) label'
  = Pandas.getitem d label'.
Proof.
  intros Hne. unfold Pandas.getitem, Pandas.setitem.
  destruct (list_find _ (cols d)) as [[k x]|] eqn:Hf; simpl.
  - apply find_lookup in Hf as [Hk Hx]. simpl in Hx.
    rewrite find_insert_miss; [done| |simpl; congruence].
    intros y ?; simplify_eq. simpl. congruence.
  - rewrite find_snoc_other; [done|]. simpl. congruence.
Qed.

Lemma columns_setitem d label cells :
  columns (Pandas.setitem d label cells)
  = if decide (label ∈ columns d) then columns d else columns d ++ [label].
Proof.
  unfold Pandas.setitem, columns.
  destruct (list_find _ (cols d)) as [[k x]|] eqn:Hf; simpl.
  - apply find_lookup in Hf as [Hk Hx]. simpl in Hx. subst.
    rewrite decide_True by (apply list_elem_of_fmap; eexists; split; [done|];
                            by eapply list_elem_of_lookup_2).
    rewrite list_fmap_insert. simpl. apply list_insert_id.
    by rewrite list_lookup_fmap, Hk.
  - rewrite fmap_app. simpl. rewrite decide_False; [done|].
    intros (x & -> & Hx)%list_elem_of_fmap.
    eapply list_find_None in Hf. eapply Forall_forall in Hf; [|done]. done.
Qed.

Lemma getitem_position d label cells :
  Pandas.getitem d label = Ok cells →
  ∃ k, position d label = Some k ∧ cols d !! k = Some (label, cells).
Proof.
  unfold Pandas.getitem, position.
  destruct (list_find _ (cols d)) as [[k [l c]]|] eqn:Hf; [|done].
  intros ?; simplify_eq. apply find_lookup in Hf as [Hk Hl]. simpl in Hl.
  subst. eauto.
Qed.

Lemma getitem_elem_of d label :
  label ∈ columns d → ∃ cells, Pandas.getitem d label = Ok cells.
Proof.
  intros (x & -> & Hx)%list_elem_of_fmap. unfold Pandas.getitem.
  destruct (list_find (λ c, c.1 = x.1) (cols d)) as [[k [l c]]|] eqn:Hf; [eauto|].
  eapply list_find_None in Hf. eapply Forall_forall in Hf; [|done]. done.
Qed.

Lemma getitem_columns d label cells :
  Pandas.getitem d label = Ok cells → label ∈ columns d.
Proof.
  intros (k & _ & Hk)%getitem_position. apply list_elem_of_fmap.
  exists (label, cells). split; [done|]. by eapply list_elem_of_lookup_2.
Qed.

Lemma getitem_with_query_row d title column k cells :
  length (cols d) = 4 → position d column = Some k →
  Pandas.getitem d column = Ok cells →
  ∃ v, query_row title !! k = Some v
       ∧ Pandas.getitem (with_query_row d title) column = Ok (cells ++ [v]).
Proof.
  destruct d as [idx [|[c0 v0] [|[c1 v1] [|[c2 v2] [|[c3 v3] [|]]]]]];
    try done.
  intros _. unfold position, Pandas.getitem, with_query_row. simpl.
  repeat case_decide; simpl; intros; simplify_eq; eauto.
Qed.

End PandasFacts.

(** * Validation of [top_n] *)

Section TopN.
Import Notions Raises.

(** C2. [get_recommendations] raises its invalid-argument error, the
    [ValueError] 'Wrong value for top_n', exactly when [top_n <= 1] or
    [top_n >= 20]: both bounds are exclusive. *)
Theorem wrong_top_n_iff title cosine_sim df column (top_n : Z) h :
  (get_recommendations title cosine_sim df column top_n h).2
    = Raise WrongTopN
  ↔ (top_n ≤ 1 ∨ 20 ≤ top_n)%Z.
Proof.
  split.
  - intros Hr. destruct (decide (1 < top_n < 20)%Z) as [Htop|]; [|lia].
    destruct (get_recommendations _ _ _ _ _ h) as [h' r] eqn:Hrun.
    simpl in Hr. subst r.
    by apply (get_recommendations_raises_valid _ _ _ _ _ Htop) in Hrun.
  - intros Htop. unfold get_recommendations.
    destruct (bool_decide (top_n < 20)%Z) eqn:H1;
      destruct (bool_decide (top_n > 1)%Z) eqn:H2; simpl; try done.
    apply bool_decide_eq_true in H1, H2. lia.
Qed.

End TopN.

(** * Which objects a computation leaves alone *)

Module Frame.
Import Notions.

Lemma preserves_ret {A} l (a : A) : preserves l (mret a).
Proof. intros h h' r. unfold mret, M_ret. by intros [= <- _]. Qed.

Lemma preserves_raise {A} l e : preserves l (@raise A e).
Proof. intros h h' r. unfold raise. by intros [= <- _]. Qed.

Lemma preserves_lift {A} l (r : result A) : preserves l (lift r).
Proof. intros h h' r'. unfold lift. by intros [= <- _]. Qed.

Lemma preserves_load l l' : preserves l (load l').
Proof.
  intros h h' r. unfold load. by destruct (h !! l'); intros [= <- _].
Qed.

Lemma preserves_store l l' d : l' ≠ l → preserves l (store l' d).
Proof.
  intros Hne h h' r. unfold store. intros [= <- _].
  by rewrite lookup_insert_ne.
Qed.

Lemma preserves_bind {A B} l (m : M A) (f : A → M B) :
  preserves l m → (∀ a, preserves l (f a)) → preserves l (m ≫= f).
Proof.
  intros Hm Hf h h' r. unfold mbind, M_bind.
  destruct (m h) as [h1 [a|e]] eqn:Hmh.
  - intros Hfa. rewrite (Hf _ _ _ _ Hfa). eauto.
  - intros [= <- _]. eauto.
Qed.

Ltac preserves_step :=
  first
    [ apply preserves_bind; [|intros ?]
    | apply preserves_ret
    | apply preserves_raise
    | apply preserves_lift
    | apply preserves_load
    | apply preserves_store; done
    | match goal with
      | |- preserves _ (match ?x with _ => _ end) => destruct x
      end ].

(** [dataframe_column_to_cosine_sim] only reads. *)
Lemma dataframe_column_to_cosine_sim_preserves stop_words l df column :
  preserves l (dataframe_column_to_cosine_sim stop_words df column).
Proof. unfold dataframe_column_to_cosine_sim. repeat preserves_step. Qed.

(** [get_recommendations] changes its own frame only (it resets the
    index). *)
Lemma get_recommendations_preserves l title cosine_sim df column top_n :
  df ≠ l →
  preserves l (get_recommendations title cosine_sim df column top_n).
Proof. intros Hne. unfold get_recommendations. repeat preserves_step. Qed.

End Frame.

(** * Ranking *)

Module Ranking.
Import Notions.

Lemma insert_desc_perm x l : insert_desc x l ≡ₚ x :: l.
Proof.
  induction l as [|y l IH]; simpl; [done|].
  case_decide; [|done]. rewrite IH. apply Permutation_swap.
Qed.

Lemma sorted_desc_perm l : sorted_desc l ≡ₚ l.
Proof.
  induction l as [|x l IH]; simpl; [done|].
  by rewrite insert_desc_perm, IH.
Qed.

Lemma head_insert_desc x l :
  head (insert_desc x l)
  = match head l with
    | Some y => if decide (x.2 < y.2)%R then Some y else Some x
    | None => Some x
    end.
Proof. destruct l as [|y l]; simpl; [done|]. by case_decide. Qed.

(** The first of the sorted pairs: the pair of greatest score, and among
    equals the one that came first. *)
Lemma head_sorted_desc l1 m l2 :
  Forall (λ y, y.2 < m.2)%R l1 → Forall (λ y, y.2 <= m.2)%R l2 →
  head (sorted_desc (l1 ++ m :: l2)) = Some m.
Proof.
  intros H1 H2. induction H1 as [|x l1 Hx _ IH]; simpl.
  - rewrite head_insert_desc.
    destruct (head (sorted_desc l2)) as [y|] eqn:Hy; [|done].
    rewrite decide_False; [done|].
    assert (y ∈ l2) as Hin.
    { rewrite <-(sorted_desc_perm l2). by apply head_Some_elem_of. }
    eapply Forall_forall in H2; [|done]. simpl in H2. lra.
  - rewrite head_insert_desc, IH. by rewrite decide_True.
Qed.

Lemma enumerate_fst {A} (l : list A) : (enumerate l).*1 = seq 0 (length l).
Proof.
  unfold enumerate. rewrite fmap_imap.
  rewrite (imap_ext _ (λ i _, i)) by done.
  apply list_eq. intros i. rewrite list_lookup_imap.
  destruct (decide (i < length l)) as [Hi|Hi].
  - rewrite lookup_seq_lt by done.
    destruct (lookup_lt_is_Some_2 l i Hi) as [x ->]. done.
  - rewrite lookup_seq_ge, (lookup_ge_None_2 l i) by lia. done.
Qed.

Lemma enumerate_split {A} (l : list A) i x :
  l !! i = Some x →
  ∃ l1 l2, enumerate l = l1 ++ (i, x) :: l2
           ∧ (∀ j y, (j, y) ∈ l1 → j < i ∧ l !! j = Some y)
           ∧ (∀ j y, (j, y) ∈ l2 → i < j ∧ l !! j = Some y).
Proof.
  intros Hi. unfold enumerate.
  assert (imap (λ i x, (i, x)) l
          = imap (λ i x, (i, x)) (take i l ++ x :: drop (S i) l)) as ->.
  { by rewrite take_drop_middle. }
  assert (length (take i l) = i) as Hlen.
  { apply length_take_le. apply lookup_lt_Some in Hi. lia. }
  rewrite imap_app. simpl. rewrite Hlen, Nat.add_0_r.
  eexists _, _. split; [reflexivity|].
  split; intros j y (k & z & Heq & Hk)%elem_of_lookup_imap;
    simpl in Heq; simplify_eq.
  - by apply lookup_take_Some in Hk as [? ?].
  - rewrite lookup_drop in Hk.
    split; [lia|]. rewrite <-Hk. f_equal. lia.
Qed.

Lemma item_indices_length scores top_n :
  length (item_indices scores top_n)
  = Z.to_nat top_n `min` (length scores - 1).
Proof.
  unfold item_indices.
  rewrite length_fmap, length_take, length_drop.
  rewrite (Permutation_length (sorted_desc_perm _)).
  unfold enumerate. by rewrite length_imap.
Qed.

Lemma sorted_enumerate_fst scores :
  (sorted_desc (enumerate scores)).*1 ≡ₚ seq 0 (length scores).
Proof. by rewrite sorted_desc_perm, enumerate_fst. Qed.

Lemma item_indices_elem_of scores top_n p :
  p ∈ item_indices scores top_n →
  p ∈ (drop 1 (sorted_desc (enumerate scores))).*1.
Proof.
  unfold item_indices. intros (x & -> & Hx)%list_elem_of_fmap.
  apply elem_of_take in Hx as (i & Hi & _).
  apply list_elem_of_fmap. exists x. split; [done|].
  by eapply list_elem_of_lookup_2.
Qed.

Lemma item_indices_lt scores top_n :
  Forall (λ p, p < length scores) (item_indices scores top_n).
Proof.
  apply Forall_forall. intros p Hp%item_indices_elem_of.
  apply list_elem_of_fmap in Hp as (x & -> & Hx).
  apply list_elem_of_lookup in Hx as (i & Hi). rewrite lookup_drop in Hi.
  assert (x.1 ∈ (sorted_desc (enumerate scores)).*1) as Hin.
  { apply list_elem_of_fmap. exists x. split; [done|].
    by eapply list_elem_of_lookup_2. }
  rewrite sorted_enumerate_fst in Hin. apply elem_of_seq in Hin. lia.
Qed.

Lemma item_indices_not_first scores top_n idx :
  first_in_rank scores idx → idx ∉ item_indices scores top_n.
Proof.
  intros (s & Hs & Hmax) Hin.
  apply item_indices_elem_of in Hin.
  destruct (enumerate_split scores idx s Hs) as (l1 & l2 & Heq & H1 & H2).
  assert (head (sorted_desc (enumerate scores)) = Some (idx, s)) as Hhd.
  { rewrite Heq. apply head_sorted_desc; apply Forall_forall.
    - intros [j y] Hj. destruct (H1 _ _ Hj) as [? Hy].
      by apply (Hmax _ _ Hy).
    - intros [j y] Hj. destruct (H2 _ _ Hj) as [? Hy].
      by apply (Hmax _ _ Hy). }
  pose proof (sorted_enumerate_fst scores) as Hperm.
  destruct (sorted_desc (enumerate scores)) as [|m rest]; [done|].
  simpl in Hhd, Hin. simplify_eq. rewrite drop_0 in Hin.
  assert (NoDup (idx :: rest.*1)) as Hnd.
  { simpl in Hperm. rewrite Hperm. apply NoDup_seq. }
  by apply NoDup_cons in Hnd as [? _].
Qed.

End Ranking.

(** * Looking rows up and selecting them *)

Module Lookup.
Import Notions PandasFacts.

Lemma filter_zip_none (v : value) cells (zs : list Z) :
  v ∉ cells → filter (λ e, e.1 = v) (zip cells zs) = [].
Proof.
  revert zs. induction cells as [|c cells IH]; intros [|z zs] Hv; try done.
  simpl. apply not_elem_of_cons in Hv as [? ?].
  rewrite filter_cons_False by (simpl; congruence). auto.
Qed.

Lemma filter_zip_unique (v : value) cells start n idx :
  length cells ≤ n → cells !! idx = Some v →
  (∀ j, cells !! j = Some v → j = idx) →
  (filter (λ e, e.1 = v) (zip cells (Z.of_nat <$> seq start n))).*2
  = [Z.of_nat (start + idx)].
Proof.
  revert start n idx. induction cells as [|c cells IH];
    intros start [|n] idx Hlen Hidx Huniq; simpl in *; try done; [lia|].
  destruct idx as [|idx]; simpl in *; simplify_eq.
  - rewrite filter_cons_True by done. simpl.
    rewrite (filter_zip_none v cells); [by rewrite Nat.add_0_r|].
    intros (j & Hj)%list_elem_of_lookup. by specialize (Huniq (S j) Hj).
  - rewrite filter_cons_False.
    + etrans; [apply (IH (S start) n idx); [lia|done|]|f_equal; lia].
      intros j Hj. specialize (Huniq (S j) Hj). lia.
    + simpl. intros ->. by specialize (Huniq 0 eq_refl).
Qed.

(** The title that labels one row is looked up to the position of that
    row. *)
Lemma series_getitem_unique cells title idx :
  cells !! idx = Some (VStr title) →
  (∀ j, cells !! j = Some (VStr title) → j = idx) →
  Pandas.series_getitem (Pandas.range_index (length cells)) cells title
  = Ok (Pandas.Scalar (Z.of_nat idx)).
Proof.
  intros Hidx Huniq. unfold Pandas.series_getitem, Pandas.range_index.
  by rewrite (filter_zip_unique _ _ 0 _ idx).
Qed.

Lemma series_getitem_absent values cells title :
  VStr title ∉ cells →
  Pandas.series_getitem values cells title = Raise (KeyError title).
Proof.
  intros Hv. unfold Pandas.series_getitem. by rewrite filter_zip_none.
Qed.

Lemma row_lookup {A} (a : list A) i r :
  a !! i = Some r → Numpy.row a (Z.of_nat i) = Ok r.
Proof.
  intros Hi. unfold Numpy.row.
  rewrite !(bool_decide_true (0 ≤ Z.of_nat i)%Z) by lia.
  by rewrite Nat2Z.id, Hi.
Qed.

Lemma pick_lt {A} (l : list A) ps :
  Forall (λ p, p < length l) ps →
  ∃ r, Pandas.pick l ps = Some r ∧ Forall2 (λ p x, l !! p = Some x) ps r.
Proof.
  intros Hps. unfold Pandas.pick.
  destruct (mapM (λ p, l !! p) ps) as [r|] eqn:Hr.
  - exists r. split; [done|]. by apply mapM_Some.
  - apply mapM_None in Hr. apply Exists_exists in Hr as (p & Hp & Hnone).
    eapply Forall_forall in Hps; [|done].
    apply lookup_ge_None in Hnone. lia.
Qed.

Lemma iloc_ok d ps :
  Forall (λ c, length c.2 = nrows d) (cols d) →
  Forall (λ p, p < nrows d) ps →
  ∃ res, Pandas.iloc d ps = Ok res
         ∧ nrows res = length ps
         ∧ Forall2 (λ c c', c'.1 = c.1 ∧ Pandas.pick c.2 ps = Some c'.2)
             (cols d) (cols res).
Proof.
  intros Hwf Hps. unfold Pandas.iloc.
  destruct (pick_lt (index d) ps Hps) as (idx & -> & Hidx).
  destruct (mapM _ (cols d)) as [cs|] eqn:Hcs.
  - eexists. split; [done|]. split.
    + unfold nrows. simpl. symmetry. by eapply Forall2_length.
    + simpl. apply mapM_Some in Hcs.
      eapply Forall2_impl; [done|]. intros c c'. simpl.
      destruct (Pandas.pick c.2 ps); simpl; [|done].
      by intros [= <-].
  - exfalso. apply mapM_None in Hcs.
    apply Exists_exists in Hcs as (c & Hc & Hnone).
    eapply Forall_forall in Hwf; [|done]. simpl in Hwf.
    destruct (pick_lt c.2 ps) as (r & Hr & _); [by rewrite Hwf|].
    by rewrite Hr in Hnone.
Qed.

Lemma getitem_picked d res ps label cells :
  Forall2 (λ c c', c'.1 = c.1 ∧ Pandas.pick c.2 ps = Some c'.2)
    (cols d) (cols res) →
  Pandas.getitem d label = Ok cells →
  ∃ cells', Pandas.getitem res label = Ok cells'
            ∧ Pandas.pick cells ps = Some cells'.
Proof.
  unfold Pandas.getitem. generalize (cols d) (cols res).
  induction 1 as [|[l c] [l' c'] cs cs' [Hl Hc] _ IH]; simpl in *; [done|].
  subst l'. case_decide.
  - intros [= <-]. eauto.
  - destruct (list_find _ cs) as [[? [? ?]]|]; simpl; [|done].
    destruct (list_find _ cs') as [[? [? ?]]|]; simpl in *; [|naive_solver].
    intros [= <-]. apply IH. done.
Qed.

Lemma project3 d a b c ca cb cc :
  Pandas.getitem d a = Ok ca → Pandas.getitem d b = Ok cb →
  Pandas.getitem d c = Ok cc →
  Pandas.project d [a; b; c]
  = Ok (mkFrame (index d) [(a, ca); (b, cb); (c, cc)]).
Proof.
  intros Ha Hb Hc. unfold Pandas.project. simpl.
  by rewrite Ha, Hb, Hc.
Qed.

End Lookup.

(** * The recommender *)

Section Recommend.
Import Notions Raises PandasFacts Ranking Lookup.

Lemma getitem_length d label cells :
  wf_frame d → Pandas.getitem d label = Ok cells → length cells = nrows d.
Proof.
  intros [_ Hwf] (k & _ & Hk)%getitem_position.
  eapply Forall_forall in Hwf; [|by eapply list_elem_of_lookup_2]. done.
Qed.

Lemma nrows_reset_index d : nrows (Pandas.reset_index d) = nrows d.
Proof.
  unfold nrows, Pandas.reset_index, Pandas.range_index. simpl.
  by rewrite length_fmap, length_seq.
Qed.

Lemma wf_reset_index d : wf_frame d → wf_frame (Pandas.reset_index d).
Proof.
  intros [Hnd Hlen]. split; [done|]. by rewrite nrows_reset_index.
Qed.

(** [get_recommendations] up to the scores of the row that [title]
    labels. *)
Lemma get_recommendations_located
    h df d title cosine_sim column top_n cells idx scores :
  (1 < top_n < 20)%Z →
  h !! df = Some d →
  Pandas.getitem d column = Ok cells →
  length cells = nrows d →
  cells !! idx = Some (VStr title) →
  (∀ j, cells !! j = Some (VStr title) → j = idx) →
  cosine_sim !! idx = Some scores →
  get_recommendations title cosine_sim df column top_n h
  = (<[df := Pandas.reset_index d]> h,
     recommend_from scores (Pandas.reset_index d) column top_n).
Proof.
  intros Htop Hd Hcells Hlen Hidx Huniq Hscores.
  unfold get_recommendations. rewrite !bool_decide_true by lia. simpl.
  cbv [mbind M_bind mret M_ret lift load store raise].
  rewrite Hd, lookup_insert_eq.
  change (Pandas.getitem (Pandas.reset_index d) column)
    with (Pandas.getitem d column).
  rewrite Hcells. simpl. rewrite <-Hlen.
  rewrite (series_getitem_unique _ _ idx) by done.
  by rewrite (row_lookup _ _ _ Hscores).
Qed.

(** The selection succeeds when the scores are no more than the rows. *)
Lemma recommend_from_ok scores d column top_n cells :
  wf_frame d →
  "ID" ∈ columns d → "Deadline" ∈ columns d →
  Pandas.getitem d column = Ok cells →
  length scores ≤ nrows d →
  ∃ res cells',
    recommend_from scores d column top_n = Ok res
    ∧ nrows res = Z.to_nat top_n `min` (length scores - 1)
    ∧ columns res = ["ID"; column; "Deadline"]
    ∧ Pandas.getitem res column = Ok cells'
    ∧ Pandas.pick cells (item_indices scores top_n) = Some cells'.
Proof.
  intros Hwf (c1 & H1)%getitem_elem_of (c3 & H3)%getitem_elem_of Hc Hlen.
  unfold recommend_from. fold (item_indices scores top_n).
  rewrite (project3 _ _ _ _ _ _ _ H1 Hc H3). simpl.
  set (p := mkFrame _ _).
  destruct (iloc_ok p (item_indices scores top_n)) as (res & -> & Hn & Hcols).
  { change (cols p) with [("ID", c1); (column, cells); ("Deadline", c3)].
    change (nrows p) with (nrows d).
    rewrite !Forall_cons. simpl.
    split_and!; [by eapply getitem_length..|done]. }
  { eapply Forall_impl; [apply item_indices_lt|]. simpl.
    unfold nrows in *. simpl. lia. }
  assert (Pandas.getitem p column = Ok cells) as Hp.
  { unfold Pandas.getitem, p. simpl. case_decide as Heq; simpl.
    - rewrite <-Heq in Hc. congruence.
    - by rewrite decide_True. }
  destruct (getitem_picked _ _ _ _ _ Hcols Hp) as (cells' & Hres & Hpick).
  exists res, cells'. split_and!; [done| |  |done..].
  - by rewrite Hn, item_indices_length.
  - unfold columns. subst p. simpl in Hcols.
    repeat (apply Forall2_cons_inv_l in Hcols
              as ([? ?] & ? & [? _] & Hcols & ->); simpl in *; subst).
    by apply Forall2_nil_inv_l in Hcols as ->.
Qed.

(** What [get_recommendations] returns for a title that labels one row. *)
Lemma get_recommendations_returns
    h df d title cosine_sim column top_n cells idx scores :
  (1 < top_n < 20)%Z →
  h !! df = Some d →
  wf_frame d →
  "ID" ∈ columns d → "Deadline" ∈ columns d →
  Pandas.getitem d column = Ok cells →
  cells !! idx = Some (VStr title) →
  (∀ j, cells !! j = Some (VStr title) → j = idx) →
  cosine_sim !! idx = Some scores →
  length scores = nrows d →
  ∃ res cells',
    get_recommendations title cosine_sim df column top_n h
    = (<[df := Pandas.reset_index d]> h, Ok res)
    ∧ nrows res = Z.to_nat top_n `min` (nrows d - 1)
    ∧ nrows res ≤ Z.to_nat top_n
    ∧ Pandas.getitem res column = Ok cells'
    ∧ (first_in_rank scores idx → VStr title ∉ cells').
Proof.
  intros Htop Hd Hwf HID HDl Hcells Hidx Huniq Hscores Hlen.
  pose proof (getitem_length _ _ _ Hwf Hcells) as Hclen.
  rewrite (get_recommendations_located _ _ _ _ _ _ _ _ _ _
             Htop Hd Hcells Hclen Hidx Huniq Hscores).
  destruct (recommend_from_ok scores (Pandas.reset_index d) column top_n
              cells) as (res & cells' & -> & Hn & _ & Hres & Hpick);
    [by apply wf_reset_index|done..|rewrite nrows_reset_index; lia|].
  exists res, cells'. rewrite Hn, Hlen. split_and!; [done..|lia|done|].
  intros Hfirst Hin. apply mapM_Some in Hpick.
  apply list_elem_of_lookup in Hin as (i & Hi).
  destruct (Forall2_lookup_r _ _ _ _ _ Hpick Hi) as (p & Hp & Hcp).
  apply Huniq in Hcp as ->.
  eapply item_indices_not_first; [done|]. by eapply list_elem_of_lookup_2.
Qed.

(** C1, as the program has it. With [top_n] accepted, on a well-formed
    frame of N rows that has the columns ID, [column] and Deadline, with
    [title] the label of one row and N scores for it, the call returns a
    table of min(top_n, N-1) rows, hence at most [top_n]; the row of
    [title] is not among them when its own score is sorted first: no score
    is greater and the scores of the rows before it are smaller. *)
Theorem recommendations_count_and_self
    h df d title cosine_sim column top_n cells idx scores :
  (1 < top_n < 20)%Z →
  h !! df = Some d →
  wf_frame d →
  "ID" ∈ columns d → "Deadline" ∈ columns d →
  Pandas.getitem d column = Ok cells →
  cells !! idx = Some (VStr title) →
  (∀ j, cells !! j = Some (VStr title) → j = idx) →
  cosine_sim !! idx = Some scores →
  length scores = nrows d →
  ∃ res cells',
    get_recommendations title cosine_sim df column top_n h
    = (<[df := Pandas.reset_index d]> h, Ok res)
    ∧ nrows res = Z.to_nat top_n `min` (nrows d - 1)
    ∧ nrows res ≤ Z.to_nat top_n
    ∧ Pandas.getitem res column = Ok cells'
    ∧ (first_in_rank scores idx → VStr title ∉ cells').
Proof. apply get_recommendations_returns. Qed.

End Recommend.

Section KeyNotFound.
Import Notions Raises PandasFacts Ranking Lookup.

Lemma row_fails_index {A} (a : list A) i :
  fails_only (Numpy.row a i) (λ e, e = IndexError).
Proof.
  unfold Numpy.row. repeat case_match;
    first [apply fails_only_ok | by apply fails_only_raise].
Qed.

Lemma iloc_fails_index d ps :
  fails_only (Pandas.iloc d ps) (λ e, e = IndexError).
Proof.
  unfold Pandas.iloc. repeat case_match;
    first [apply fails_only_ok | by apply fails_only_raise].
Qed.

Lemma recommend_from_fails_index scores d column top_n :
  "ID" ∈ columns d → "Deadline" ∈ columns d → column ∈ columns d →
  fails_only (recommend_from scores d column top_n) (λ e, e = IndexError).
Proof.
  intros (c1 & H1)%getitem_elem_of (c3 & H3)%getitem_elem_of
         (c2 & H2)%getitem_elem_of.
  unfold recommend_from. rewrite (project3 _ _ _ _ _ _ _ H1 H2 H3). simpl.
  apply iloc_fails_index.
Qed.

Lemma series_getitem_present values cells title :
  VStr title ∈ cells → length cells ≤ length values →
  ∃ r, Pandas.series_getitem values cells title = Ok r.
Proof.
  intros (i & Hi)%list_elem_of_lookup Hlen. unfold Pandas.series_getitem.
  destruct (lookup_lt_is_Some_2 values i) as [z Hz].
  { apply lookup_lt_Some in Hi. lia. }
  assert (z ∈ (filter (λ e, e.1 = VStr title) (zip cells values)).*2) as Hin.
  { apply list_elem_of_fmap. exists (VStr title, z). split; [done|].
    apply list_elem_of_filter. split; [done|].
    apply list_elem_of_lookup. exists i.
    rewrite lookup_zip_with, Hi. simpl. by rewrite Hz. }
  destruct (_.*2) as [|? [|? ?]]; [by apply elem_of_nil in Hin|eauto..].
Qed.

(** C8. With [top_n] accepted and the columns ID and Deadline in place: a
    title that is not among the cells of [column] is a key-not-found
    error, and a title that is among them is not.  The cells need not be
    distinct for this. *)
Theorem key_not_found_iff h df d title cosine_sim column top_n cells :
  (1 < top_n < 20)%Z →
  h !! df = Some d →
  wf_frame d →
  "ID" ∈ columns d → "Deadline" ∈ columns d →
  Pandas.getitem d column = Ok cells →
  let r := (get_recommendations title cosine_sim df column top_n h).2 in
  (VStr title ∉ cells → r = Raise (KeyError title))
  ∧ (VStr title ∈ cells → ∀ key, r ≠ Raise (KeyError key)).
Proof.
  intros Htop Hd Hwf HID HDl Hcells.
  pose proof (getitem_length _ _ _ Hwf Hcells) as Hlen.
  assert (column ∈ columns d) as Hcol by by eapply getitem_columns.
  unfold get_recommendations. rewrite !bool_decide_true by lia. simpl.
  cbv [mbind M_bind mret M_ret lift load store raise].
  rewrite Hd, lookup_insert_eq.
  change (Pandas.getitem (Pandas.reset_index d) column)
    with (Pandas.getitem d column).
  rewrite Hcells. split.
  - intros Habs. by rewrite series_getitem_absent.
  - intros Hin key.
    destruct (series_getitem_present (index (Pandas.reset_index d))
                cells title Hin) as [r ->].
    { rewrite Hlen. fold (nrows (Pandas.reset_index d)).
      by rewrite nrows_reset_index. }
    assert (∀ scores,
              recommend_from scores (Pandas.reset_index d) column top_n
              ≠ Raise (KeyError key)) as Hrec.
    { intros scores Hr.
      by apply (recommend_from_fails_index scores (Pandas.reset_index d)
                  column top_n) in Hr. }
    destruct r as [idx|idx].
    + destruct (Numpy.row cosine_sim idx) as [scores|e] eqn:Hrow; simpl.
      * apply Hrec.
      * apply row_fails_index in Hrow. by subst e.
    + destruct (mapM _ idx) as [rows|e] eqn:Hrows; simpl.
      * destruct (mapM _ rows); simpl; [apply Hrec|done].
      * eapply (fails_only_mapM _ _ (λ e, e = IndexError)) in Hrows;
          [by subst e|]. intros x. apply row_fails_index.
Qed.

End KeyNotFound.

Section Counter.
Import Notions PandasFacts Ranking Lookup Example.
Local Open Scope R_scope.

Lemma sorted_reworded_row :
  sorted_desc (enumerate [1; 1; 0]) = [(0%nat, 1); (1%nat, 1); (2%nat, 0)].
Proof.
  unfold sorted_desc, enumerate. simpl.
  repeat (simpl; case_decide; try lra). done.
Qed.

(** C1 fails as stated: in [reworded] the second task is as similar to
    the first as to itself, the first is sorted first and dropped, and the
    query for the second task returns the second task. *)
Lemma recommendations_include_query :
  ∃ res,
    get_recommendations "Fix the server outage!" reworded_sim 0%nat "Task" 2
      (store_of reworded)
    = (<[0%nat := Pandas.reset_index reworded]> (store_of reworded), Ok res)
    ∧ Pandas.getitem res "Task"
      = Ok [VStr "Fix the server outage!"; VStr "plan holiday party"].
Proof.
  eexists. split.
  - erewrite (get_recommendations_located _ _ reworded _ _ _ _ _ 1%nat);
      [|lia|done..| |done].
    + unfold recommend_from. rewrite sorted_reworded_row. reflexivity.
    + intros [|[|[|j]]]; simpl; [done..|]. by destruct j.
  - reflexivity.
Qed.

End Counter.

(** * Similarity *)

Module Kernel.
Import Notions Sklearn.
Local Open Scope R_scope.

Lemma dot_nil_l v : dot [] v = 0.
Proof. done. Qed.

Lemma dot_cons x u y v : dot (x :: u) (y :: v) = x * y + dot u v.
Proof. done. Qed.

Lemma dot_comm u v : dot u v = dot v u.
Proof.
  revert v. induction u as [|x u IH]; intros [|y v]; try done.
  rewrite !dot_cons, IH. lra.
Qed.

Lemma dot_self_nonneg v : 0 <= dot v v.
Proof.
  induction v as [|x v IH]; [unfold dot; simpl; lra|].
  rewrite dot_cons. nra.
Qed.

Lemma dot_self_zero v : dot v v = 0 → zero_vector v.
Proof.
  induction v as [|x v IH]; [constructor|].
  rewrite dot_cons. intros Hx. pose proof (dot_self_nonneg v).
  constructor; [nra|]. apply IH. nra.
Qed.

Lemma dot_zero_l u v : zero_vector u → dot u v = 0.
Proof.
  intros Hu. revert v. induction Hu as [|x u -> _ IH]; intros [|y v];
    try done.
  rewrite dot_cons, IH. lra.
Qed.

Lemma dot_scale k u v :
  dot ((λ x, x / k) <$> u) ((λ x, x / k) <$> v) = dot u v / (k * k).
Proof.
  destruct (Req_dec_T k 0) as [->|Hk].
  { revert v. induction u as [|x u IH]; intros [|y v]; simpl;
      rewrite ?dot_nil_l; try (unfold dot; simpl; unfold Rdiv;
                               rewrite Rmult_0_r, Rinv_0; lra).
    rewrite !dot_cons, IH. unfold Rdiv. rewrite Rmult_0_r, Rinv_0. lra. }
  revert v. induction u as [|x u IH]; intros [|y v]; simpl;
    try (unfold dot; simpl; lra).
  rewrite !dot_cons, IH. by field.
Qed.

(** Among vectors of the same length, of squared norm 1 and at most 1,
    the dot product is at most 1. *)
Lemma dot_diff u v :
  length u = length v →
  0 <= dot u u - 2 * dot u v + dot v v.
Proof.
  revert v. induction u as [|x u IH]; intros [|y v] Hlen; try done.
  { unfold dot. simpl. lra. }
  rewrite !dot_cons. simpl in Hlen. specialize (IH v ltac:(lia)).
  pose proof (Rle_0_sqr (x - y)) as Hsq. unfold Rsqr in Hsq. lra.
Qed.

Lemma dot_unit_le u v :
  length u = length v → dot u u = 1 → dot v v <= 1 → dot u v <= 1.
Proof. intros Hlen Hu Hv. pose proof (dot_diff u v Hlen). lra. Qed.

Lemma length_normalize v : length (normalize v) = length v.
Proof.
  unfold normalize. destruct (Req_dec_T _ _); [done|].
  by rewrite length_fmap.
Qed.

(** A normalised row is a vector of zeros or has norm 1. *)
Lemma normalize_cases v :
  zero_vector (normalize v)
  ∨ (¬ zero_vector (normalize v)
     ∧ dot (normalize v) (normalize v) = 1).
Proof.
  unfold normalize, norm_l2. pose proof (dot_self_nonneg v) as Hpos.
  destruct (Req_dec_T (sqrt (dot v v)) 0) as [Hz|Hnz].
  - left. apply dot_self_zero. by apply sqrt_eq_0.
  - right. assert (dot ((λ x, x / sqrt (dot v v)) <$> v)
                       ((λ x, x / sqrt (dot v v)) <$> v) = 1) as Hone.
    { rewrite dot_scale, sqrt_sqrt by done. field. intros Hd.
      apply Hnz. rewrite Hd. apply sqrt_0. }
    split; [|done]. intros Hzero.
    rewrite (dot_zero_l _ _ Hzero) in Hone. lra.
Qed.

Lemma normalize_dot_le v : dot (normalize v) (normalize v) <= 1.
Proof.
  destruct (normalize_cases v) as [Hz|[_ ->]]; [|lra].
  rewrite (dot_zero_l _ _ Hz). lra.
Qed.

Lemma cell_linear_kernel X Y i j :
  cell (linear_kernel X Y) i j
  = x ← X !! i; y ← Y !! j; Some (dot x y).
Proof.
  unfold cell, linear_kernel. rewrite list_lookup_fmap.
  destruct (X !! i) as [x|]; simpl; [|done].
  rewrite list_lookup_fmap. by destruct (Y !! j).
Qed.

Lemma linear_kernel_symmetric X i j :
  cell (linear_kernel X X) i j = cell (linear_kernel X X) j i.
Proof.
  rewrite !cell_linear_kernel.
  destruct (X !! i) as [x|], (X !! j) as [y|]; simpl; try done.
  by rewrite dot_comm.
Qed.

Lemma fit_transform_rows stop_words corpus X :
  fit_transform stop_words corpus = Ok X →
  ∃ vocab, vocab ≠ []
    ∧ X = (λ doc, normalize (tfidf_row stop_words vocab corpus doc))
            <$> corpus.
Proof.
  unfold fit_transform. destruct (vocabulary _ _) as [|t vocab]; [done|].
  intros [= <-]. by exists (t :: vocab).
Qed.

Lemma fit_transform_row stop_words corpus X i row :
  fit_transform stop_words corpus = Ok X → X !! i = Some row →
  ∃ n v, row = normalize v ∧ length v = n
         ∧ Forall (λ r, ∃ v', r = normalize v' ∧ length v' = n) X.
Proof.
  intros (vocab & _ & ->)%fit_transform_rows (doc & -> & _)%list_lookup_fmap_Some.
  eexists (length vocab), _. split; [done|]. split.
  - unfold tfidf_row. by rewrite length_fmap.
  - apply Forall_fmap, Forall_forall. intros doc' _. simpl.
    eexists. split; [done|]. unfold tfidf_row. by rewrite length_fmap.
Qed.

Lemma length_linear_kernel X Y : length (linear_kernel X Y) = length X.
Proof. unfold linear_kernel. by rewrite length_fmap. Qed.

Lemma linear_kernel_row X Y i row :
  linear_kernel X Y !! i = Some row → length row = length Y.
Proof.
  unfold linear_kernel. rewrite list_lookup_fmap.
  destruct (X !! i); simpl; [|done]. intros [= <-]. by rewrite length_fmap.
Qed.

End Kernel.

Section Similarity.
Import Notions Sklearn Kernel.
Local Open Scope R_scope.

Variable stop_words : list string.

Lemma dataframe_column_to_cosine_sim_ok h df d column cells docs X :
  h !! df = Some d →
  Pandas.getitem d column = Ok cells →
  mapM as_string cells = Ok docs →
  fit_transform stop_words docs = Ok X →
  dataframe_column_to_cosine_sim stop_words df column h
  = (h, Ok (cells, X, linear_kernel X X)).
Proof.
  intros Hd Hcells Hdocs HX. unfold dataframe_column_to_cosine_sim.
  cbv [mbind M_bind mret M_ret lift load].
  by rewrite Hd, Hcells, Hdocs, HX.
Qed.

Lemma dataframe_column_to_cosine_sim_inv h df column h' corpus X sim :
  dataframe_column_to_cosine_sim stop_words df column h
  = (h', Ok (corpus, X, sim)) →
  ∃ docs, fit_transform stop_words docs = Ok X
          ∧ sim = linear_kernel X X.
Proof.
  unfold dataframe_column_to_cosine_sim.
  cbv [mbind M_bind mret M_ret lift load].
  destruct (h !! df) as [d|]; [|done].
  destruct (Pandas.getitem d column) as [cells|]; [|done].
  destruct (mapM as_string cells) as [docs|]; [|done].
  destruct (fit_transform stop_words docs) as [X'|] eqn:HX; [|done].
  intros [= <- <- <- <-]. eauto.
Qed.

(** C6. The similarity matrix is symmetric: [sim[i][j] == sim[j][i]] for
    all [i] and [j], in exact arithmetic. *)
Theorem cosine_sim_symmetric h df column h' corpus tfidf_matrix cosine_sim :
  dataframe_column_to_cosine_sim stop_words df column h
  = (h', Ok (corpus, tfidf_matrix, cosine_sim)) →
  ∀ i j, cell cosine_sim i j = cell cosine_sim j i.
Proof.
  intros (docs & _ & ->)%dataframe_column_to_cosine_sim_inv i j.
  apply linear_kernel_symmetric.
Qed.

(** C7. For a row [i] whose TF-IDF vector is not zero, the similarity of
    the row to itself is 1 and no entry of its row of the matrix is
    greater. *)
Theorem self_similarity_maximal
    h df column h' corpus tfidf_matrix cosine_sim i row :
  dataframe_column_to_cosine_sim stop_words df column h
  = (h', Ok (corpus, tfidf_matrix, cosine_sim)) →
  tfidf_matrix !! i = Some row →
  ¬ zero_vector row →
  cell cosine_sim i i = Some 1
  ∧ ∀ j s, cell cosine_sim i j = Some s → s <= 1.
Proof.
  intros (docs & HX & ->)%dataframe_column_to_cosine_sim_inv Hrow Hnz.
  destruct (fit_transform_row _ _ _ _ _ HX Hrow) as (n & v & -> & Hv & Hall).
  assert (dot (normalize v) (normalize v) = 1) as Hone.
  { by destruct (normalize_cases v) as [?|[_ ?]]. }
  split.
  - rewrite cell_linear_kernel, Hrow. simpl. by rewrite Hone.
  - intros j s. rewrite cell_linear_kernel, Hrow. simpl.
    destruct (tfidf_matrix !! j) as [row'|] eqn:Hj; simpl; [|done].
    intros [= <-]. eapply Forall_forall in Hall;
      [|by eapply list_elem_of_lookup_2].
    destruct Hall as (v' & -> & Hv').
    apply dot_unit_le; [|done|apply normalize_dot_le].
    by rewrite !length_normalize, Hv, Hv'.
Qed.

End Similarity.

(** * The frame preparer *)

Lemma split_empty_cleaned sw title :
  ¬ (length (Text.split (cleaner sw title)) < 2) →
  Text.is_empty (cleaner sw title) = false.
Proof. destruct (cleaner sw title); [simpl; lia|done]. Qed.

Lemma removelast_snoc {A} (l : list A) x : removelast (l ++ [x]) = l.
Proof. induction l as [|y [|z l] IH]; simpl in *; [done..|]. by rewrite IH. Qed.


Section Preparer.
Import Notions Raises PandasFacts.

Variables stopwords stop_words : list string.

Lemma run_bind {A B} (m : M A) (f : A → M B) h :
  (m ≫= f) h
  = match m h with
    | (h', Ok a) => f a h'
    | (h', Raise e) => (h', Raise e)
    end.
Proof. reflexivity. Qed.

(** What a call for a new query comes to, once the title is long enough and
    the frame has four columns. *)

Lemma initialize_new_query h df d title column top_n k cells :
  h !! df = Some d →
  length (cols d) = 4 →
  position d column = Some k →
  Pandas.getitem d column = Ok cells →
  ¬ (length (Text.split (cleaner stopwords title)) < 2) →
  ∃ v w,
    query_row title !! k = Some v
    ∧ w = Pandas.setitem (with_query_row d title) "cleaned_column"
            (cleaned_cells stopwords (cells ++ [v]))
    ∧ initialize_frame_for_recommender stopwords stop_words
        df title column top_n true h
      = let l := fresh (dom h) in
        if bool_decide (VStr (cleaner stopwords title)
                        ∈ cleaned_cells stopwords cells)
        then (<[l := w]> h, Raise (SameTask title))
        else ('(_, _, cosine_sim) ←
                dataframe_column_to_cosine_sim stop_words l "cleaned_column";
              get_recommendations title cosine_sim l column top_n)
               (<[l := w]> h).
Proof.
  intros Hd Hlen Hk Hcells Hlong.
  destruct (getitem_with_query_row d title _ _ _ Hlen Hk Hcells)
    as (v & Hv & Hw).
  eexists v, _. split; [done|]. split; [done|].
  unfold initialize_frame_for_recommender.
  rewrite bool_decide_false by done.
  cbv [mbind M_bind mret M_ret lift load store alloc raise].
  rewrite Hd, of_rows_query.
  rewrite decide_True by (unfold columns; by rewrite length_fmap).
  rewrite append_query by done.
  rewrite lookup_insert_eq, Hw, insert_insert_eq, lookup_insert_eq.
  rewrite getitem_setitem_eq, split_empty_cleaned by done.
  fold (cleaned_cells stopwords (cells ++ [v])).
  assert (removelast (cleaned_cells stopwords (cells ++ [v]))
          = cleaned_cells stopwords cells) as ->.
  { unfold cleaned_cells. rewrite fmap_app. apply removelast_snoc. }
  simpl. by case_bool_decide.
Qed.

(** C3. For a new query, the call fails with the insufficient-input error
    exactly when the cleaned title has fewer than two tokens, and then the
    store is as it was: no row was appended to any frame. *)
Theorem too_short_iff h df title column top_n :
  let run := initialize_frame_for_recommender stopwords stop_words
               df title column top_n true h in
  ((∃ t, run.2 = Raise (TooShortInput t))
   ↔ length (Text.split (cleaner stopwords title)) < 2)
  ∧ ((∃ t, run.2 = Raise (TooShortInput t))
     → run = (h, Raise (TooShortInput title))).
Proof.
  set (P := λ e, match e with TooShortInput _ => False | _ => True end).
  assert (∀ e, library_error e → P e) as HP by (by intros []).
  assert (length (Text.split (cleaner stopwords title)) < 2
          → initialize_frame_for_recommender stopwords stop_words
              df title column top_n true h
            = (h, Raise (TooShortInput title))) as Hshort.
  { intros Hlen. unfold initialize_frame_for_recommender.
    by rewrite bool_decide_true. }
  assert ((∃ t, (initialize_frame_for_recommender stopwords stop_words
                   df title column top_n true h).2 = Raise (TooShortInput t))
          → length (Text.split (cleaner stopwords title)) < 2) as Hlong.
  { intros [t Ht].
    destruct (decide (length (Text.split (cleaner stopwords title)) < 2))
      as [|Hlen]; [done|exfalso]. clear Hshort.
    destruct (initialize_frame_for_recommender _ _ _ _ _ _ _ h)
      as [h' r] eqn:Hrun.
    simpl in Ht. subst r. revert Hrun.
    unfold initialize_frame_for_recommender.
    rewrite bool_decide_false by done. intros Hrun.
    match type of Hrun with
    | ?m h = _ => assert (raises_only m P) as Hr
    end; [|by apply Hr in Hrun].
    raises_all HP. }
  simpl. split; [split|]; [done| |].
  - intros Hlen. rewrite Hshort by done. eauto.
  - intros Ht. by rewrite Hshort by auto.
Qed.

(** C4. For a new query with a cleaned title of at least two tokens, on a
    frame of four columns that has [column], the call fails with the
    duplicate-input error exactly when the cleaned title is the cleaned
    form of a cell that [column] had before the call. *)
Theorem same_task_iff h df d title column top_n cells :
  h !! df = Some d →
  length (columns d) = 4 →
  Pandas.getitem d column = Ok cells →
  2 ≤ length (Text.split (cleaner stopwords title)) →
  (initialize_frame_for_recommender stopwords stop_words
     df title column top_n true h).2 = Raise (SameTask title)
  ↔ ∃ x, x ∈ cells
         ∧ cleaner stopwords (py_str x) = cleaner stopwords title.
Proof.
  intros Hd Hlen Hcells Hlong.
  destruct (getitem_position _ _ _ Hcells) as (k & Hk & _).
  unfold columns in Hlen. rewrite length_fmap in Hlen.
  destruct (initialize_new_query h df d title column top_n k cells)
    as (v & w & _ & _ & ->); [done..|lia|].
  assert (VStr (cleaner stopwords title) ∈ cleaned_cells stopwords cells
          ↔ ∃ x, x ∈ cells
                 ∧ cleaner stopwords (py_str x) = cleaner stopwords title)
    as <-.
  { unfold cleaned_cells. rewrite list_elem_of_fmap.
    split; intros (x & ? & ?); exists x; split; congruence. }
  simpl. case_bool_decide as Hdup; simpl; [done|].
  split; [|done]. intros Hr. exfalso.
  match type of Hr with
  | (?m ?h).2 = _ => destruct (m h) as [h' r] eqn:Hrun
  end.
  simpl in Hr. subst r.
  eapply (delegate_raises _ _ _ _ _ (λ e, e ≠ SameTask title)) in Hrun;
    [done|done|by intros []].
Qed.

(** A call for a new query leaves the frame of the caller as it was. *)
Lemma new_query_frame_kept h df d title column top_n :
  h !! df = Some d →
  (initialize_frame_for_recommender stopwords stop_words
     df title column top_n true h).1 !! df = Some d.
Proof.
  intros Hd. unfold initialize_frame_for_recommender.
  case_bool_decide; [done|].
  rewrite run_bind, run_bind. unfold load at 1. rewrite Hd.
  rewrite run_bind. unfold lift at 1.
  destruct (Pandas.of_rows _ _ _) as [new_row|e]; [|done].
  rewrite run_bind. unfold alloc at 1, mret at 1, M_ret at 1.
  set (l := fresh (dom h)).
  assert (l ≠ df) as Hl.
  { intros Heq. apply (is_fresh (dom h)). apply elem_of_dom. fold l.
    rewrite Heq. eauto. }
  match goal with
  | |- (?m ?h').1 !! _ = _ => destruct (m h') as [h1 r] eqn:Hrun
  end.
  match type of Hrun with
  | ?m _ = _ => assert (preserves df m) as Hp
  end.
  { repeat first
      [ apply Frame.dataframe_column_to_cosine_sim_preserves
      | by apply Frame.get_recommendations_preserves
      | Frame.preserves_step ]. }
  apply Hp in Hrun. simpl. by rewrite Hrun, lookup_insert_ne.
Qed.

(** C9, as the program has it. A call for a new query leaves the frame of
    the caller as it was, whatever the outcome: [append] returns a new
    frame, and the query row and the cleaned column go to that one. *)
Theorem new_query_keeps_caller_frame h df d title column top_n :
  h !! df = Some d →
  (initialize_frame_for_recommender stopwords stop_words
     df title column top_n true h).1 !! df = Some d.
Proof. apply new_query_frame_kept. Qed.

End Preparer.

(** * The working table of a new query *)

Module WorkingTable.
Import Notions PandasFacts Lookup.

Lemma nrows_with_query_row d title : nrows (with_query_row d title) = nrows d + 1.
Proof.
  unfold nrows, with_query_row, Pandas.range_index. simpl.
  by rewrite length_fmap, length_seq.
Qed.

Lemma columns_with_query_row d title :
  length (cols d) = 4 → columns (with_query_row d title) = columns d.
Proof.
  destruct d as [idx [|[c0 v0] [|[c1 v1] [|[c2 v2] [|[c3 v3] [|]]]]]];
    by try done.
Qed.

Lemma wf_with_query_row d title :
  wf_frame d → length (cols d) = 4 → wf_frame (with_query_row d title).
Proof.
  intros [Hnd Hlen] H4. split; [by rewrite columns_with_query_row|].
  rewrite nrows_with_query_row.
  destruct d as [idx [|[c0 v0] [|[c1 v1] [|[c2 v2] [|[c3 v3] [|]]]]]];
    try done.
  unfold with_query_row, nrows in *. simpl in *.
  rewrite !Forall_cons in Hlen. simpl in Hlen.
  destruct Hlen as (? & ? & ? & ? & _).
  rewrite !Forall_cons. simpl. rewrite !length_app. simpl.
  split_and!; [lia..|done].
Qed.

Lemma nrows_setitem d label cells : nrows (Pandas.setitem d label cells) = nrows d.
Proof.
  unfold Pandas.setitem. by destruct (list_find _ _) as [[? ?]|].
Qed.

Lemma wf_setitem d label cells :
  wf_frame d → length cells = nrows d →
  wf_frame (Pandas.setitem d label cells).
Proof.
  intros [Hnd Hlen] Hcells. split.
  - rewrite columns_setitem. case_decide as Hin; [done|].
    apply NoDup_app. split_and!; [done| |apply NoDup_singleton].
    intros x Hx ->%list_elem_of_singleton. done.
  - rewrite nrows_setitem. unfold Pandas.setitem.
    destruct (list_find _ _) as [[k ?]|]; simpl.
    + apply Forall_insert; done.
    + apply Forall_app. split; [done|]. by apply Forall_singleton.
Qed.

Lemma mapM_as_string_cleaned stopwords cells :
  mapM as_string (cleaned_cells stopwords cells)
  = Ok ((λ x, cleaner stopwords (py_str x)) <$> cells).
Proof.
  unfold cleaned_cells. induction cells as [|x cells IH]; [done|].
  rewrite !fmap_cons.
  change (mapM as_string (?y :: ?l))
    with (z ← as_string y; k ← mapM as_string l; mret (z :: k)).
  by rewrite IH.
Qed.

Lemma fit_transform_ok stop_words docs :
  Sklearn.vocabulary stop_words docs ≠ [] →
  ∃ X, Sklearn.fit_transform stop_words docs = Ok X ∧ length X = length docs.
Proof.
  intros Hv. unfold Sklearn.fit_transform.
  destruct (Sklearn.vocabulary _ _); [done|].
  eexists. split; [done|]. by rewrite length_fmap.
Qed.

End WorkingTable.

Section NewQuery.
Import Notions Raises PandasFacts Ranking Lookup Kernel WorkingTable.

Variables stopwords stop_words : list string.

(** A call for a new query returns, with a table of min(top_n, N) rows for a
    frame of N rows, when the frame is well formed with [column] the second
    of its four columns, the cleaned title has two tokens or more and is no
    cleaned cell, and the vectorizer is left with a term. *)
Lemma new_query_returns h df d title column top_n cells :
  (1 < top_n < 20)%Z →
  h !! df = Some d →
  wf_frame d →
  length (columns d) = 4 →
  position d column = Some 1 →
  "ID" ∈ columns d → "Deadline" ∈ columns d →
  column ≠ "cleaned_column" →
  Pandas.getitem d column = Ok cells →
  2 ≤ length (Text.split (cleaner stopwords title)) →
  VStr (cleaner stopwords title) ∉ cleaned_cells stopwords cells →
  Sklearn.vocabulary stop_words
    ((λ x, cleaner stopwords (py_str x)) <$> (cells ++ [VStr title])) ≠ [] →
  ∃ h' res,
    initialize_frame_for_recommender stopwords stop_words
      df title column top_n true h = (h', Ok res)
    ∧ nrows res = Z.to_nat top_n `min` nrows d
    ∧ h' !! df = Some d.
Proof.
  intros Htop Hd Hwf H4 Hpos HID HDl Hcol Hcells Hlong Hdup Hvoc.
  pose proof (new_query_frame_kept stopwords stop_words
                h df d title column top_n Hd) as Hkept.
  enough (∃ h' res,
            initialize_frame_for_recommender stopwords stop_words
              df title column top_n true h = (h', Ok res)
            ∧ nrows res = Z.to_nat top_n `min` nrows d)
    as (h' & res & Hrun & Hn).
  { exists h', res. by rewrite Hrun in Hkept. }
  clear Hkept. unfold columns in H4. rewrite length_fmap in H4.
  destruct (initialize_new_query stopwords stop_words
              h df d title column top_n 1 cells)
    as (v & w & Hv & Hw & Hrun); [done..|lia|].
  unfold query_row in Hv. simpl in Hv. simplify_eq.
  rewrite Hrun. clear Hrun. simpl.
  rewrite bool_decide_false by done.
  set (l := fresh (dom h)).
  set (wq := with_query_row d title).
  set (cleaned := cleaned_cells stopwords (cells ++ [VStr title])).
  set (w := Pandas.setitem wq "cleaned_column" cleaned).
  assert (wf_frame wq) as Hwfq by by apply wf_with_query_row.
  assert (nrows wq = nrows d + 1) as Hnq by apply nrows_with_query_row.
  assert (Pandas.getitem wq column = Ok (cells ++ [VStr title])) as Hq.
  { destruct (getitem_with_query_row d title column 1 cells)
      as (v & Hv & Hg); [done..|].
    unfold query_row in Hv. simpl in Hv. by simplify_eq. }
  assert (wf_frame w) as Hwfw.
  { apply wf_setitem; [done|]. unfold cleaned, cleaned_cells.
    rewrite length_fmap. by eapply getitem_length. }
  assert (nrows w = nrows d + 1) as Hnw.
  { unfold w. by rewrite nrows_setitem. }
  destruct (fit_transform_ok stop_words _ Hvoc) as (X & HX & HlenX).
  rewrite length_fmap, length_app in HlenX. simpl in HlenX.
  pose proof (getitem_length _ _ _ Hwf Hcells) as Hclen.
  rewrite run_bind.
  rewrite (dataframe_column_to_cosine_sim_ok stop_words (<[l:=w]> h) l w
             "cleaned_column" cleaned
             ((λ x, cleaner stopwords (py_str x)) <$> (cells ++ [VStr title]))
             X);
    [|apply lookup_insert_eq|apply getitem_setitem_eq
     |apply mapM_as_string_cleaned|done].
  assert (∀ label, label ∈ columns d → label ∈ columns w) as Hin.
  { intros label Hl. unfold w. rewrite columns_setitem.
    unfold wq. rewrite columns_with_query_row by done.
    case_decide; [done|]. apply elem_of_app. by left. }
  destruct (lookup_lt_is_Some_2 (Sklearn.linear_kernel X X) (length cells))
    as [scores Hscores].
  { rewrite length_linear_kernel. lia. }
  destruct (get_recommendations_returns (<[l:=w]> h) l w title
              (Sklearn.linear_kernel X X) column top_n
              (cells ++ [VStr title]) (length cells) scores)
    as (res & cells' & Hrec & Hn & _);
    [done|apply lookup_insert_eq|done|auto..| | | |done| |].
  - unfold w. by rewrite getitem_setitem_ne.
  - by rewrite lookup_app_r, Nat.sub_diag.
  - intros j Hj. destruct (decide (j < length cells)) as [Hlt|Hge].
    + rewrite lookup_app_l in Hj by done. exfalso. apply Hdup.
      unfold cleaned_cells. apply list_elem_of_fmap. eexists.
      split; [|by eapply list_elem_of_lookup_2]. done.
    + apply lookup_lt_Some in Hj. rewrite length_app in Hj. simpl in Hj. lia.
  - apply linear_kernel_row in Hscores. lia.
  - rewrite Hrec. eexists _, res. split; [done|].
    rewrite Hn, Hnw. f_equal. lia.
Qed.

End NewQuery.

Section PreparerCounter.
Import Notions WorkingTable Example.

(** C9 fails as stated: the call for a new query on [tasks] returns its
    recommendations, and the frame of the caller is still [tasks], which has
    no row of the query. *)
Lemma caller_frame_not_extended :
  ∃ h' res,
    initialize_frame_for_recommender some_stopwords some_stopwords
      0 "urgent server crash needs repair" "Task" 2 true (store_of tasks)
    = (h', Ok res)
    ∧ h' !! 0 = Some tasks
    ∧ ¬ has_row tasks (query_row "urgent server crash needs repair").
Proof.
  destruct (new_query_returns some_stopwords some_stopwords
              (store_of tasks) 0 tasks
              "urgent server crash needs repair" "Task" 2
              [VStr "fix the server outage";
               VStr "server outage repair needed";
               VStr "plan holiday party"])
    as (h' & res & Hrun & _ & Hkept).
  - lia.
  - reflexivity.
  - split; [by_computation|by repeat constructor].
  - reflexivity.
  - reflexivity.
  - by_computation.
  - by_computation.
  - discriminate.
  - reflexivity.
  - by_computation.
  - by_computation.
  - by_computation.
  - exists h', res. split_and!; [done..|].
    intros [i Hi]. apply Forall2_cons_1 in Hi as [Hi _]. simpl in Hi.
    by destruct i as [|[|[|i]]].
Qed.

(** C4 fails as stated: on [three_columns], the table with the data model
    of the specification, a new query that cleans to the first task has a
    cleaned title of three tokens and is not refused as a duplicate; the
    call ends on the construction of the query row, and nothing is
    stored. *)
Lemma duplicate_on_three_columns :
  let title := "Fix the server outage!" in
  Pandas.getitem three_columns "Task"
  = Ok [VStr "fix the server outage"; VStr "plan holiday party"]
  ∧ 2 ≤ length (Text.split (cleaner some_stopwords title))
  ∧ cleaner some_stopwords (py_str (VStr "fix the server outage"))
    = cleaner some_stopwords title
  ∧ initialize_frame_for_recommender some_stopwords some_stopwords
      0 title "Task" 2 true (store_of three_columns)
    = (store_of three_columns, Raise ShapeMismatch)
  ∧ (initialize_frame_for_recommender some_stopwords some_stopwords
       0 title "Task" 2 true (store_of three_columns)).2
    ≠ Raise (SameTask title).
Proof.
  assert (initialize_frame_for_recommender some_stopwords some_stopwords
            0 "Fix the server outage!" "Task" 2 true (store_of three_columns)
          = (store_of three_columns, Raise ShapeMismatch)) as Hrun.
  { unfold initialize_frame_for_recommender.
    rewrite bool_decide_false by (apply Nat.le_ngt; by_computation).
    reflexivity. }
  cbv zeta. rewrite Hrun.
  split_and!; [reflexivity|by_computation|by_computation|done|done].
Qed.

End PreparerCounter.

(** * The layout that a new query needs *)

Section Positional.
Import Notions Raises PandasFacts Lookup Frame WorkingTable.

Variables stopwords stop_words : list string.

(** The store after [get_recommendations]: as it was when [top_n] is
    rejected, and otherwise with the row labels of the table reset. *)
Lemma get_recommendations_store h df d title cosine_sim column top_n :
  h !! df = Some d →
  (get_recommendations title cosine_sim df column top_n h).1
  = if bool_decide (1 < top_n < 20)%Z
    then <[df := mkFrame (Z.of_nat <$> seq 0 (nrows d)) (cols d)]> h
    else h.
Proof.
  intros Hd. case_bool_decide as Htop; unfold get_recommendations.
  - rewrite !bool_decide_true by lia. simpl.
    cbv [mbind M_bind mret M_ret lift load store raise].
    rewrite Hd, lookup_insert_eq.
    repeat case_match; simplify_eq; done.
  - assert (negb (bool_decide (top_n < 20)%Z && bool_decide (top_n > 1)%Z)
            = true) as ->; [|done].
    apply negb_true_iff, andb_false_iff.
    destruct (decide (top_n < 20)%Z).
    + right. apply bool_decide_false. lia.
    + left. by apply bool_decide_false.
Qed.

Lemma getitem_raise d label e :
  Pandas.getitem d label = Raise e → e = KeyError label ∧ label ∉ columns d.
Proof.
  intros He. split.
  - revert He. unfold Pandas.getitem.
    destruct (list_find _ _) as [[? [? ?]]|]; by intros [= <-].
  - intros (c & Hc)%getitem_elem_of. congruence.
Qed.








End Positional.

(** * The weights of the vectorizer *)

Module Weights.
Import Notions Sklearn Kernel.
Local Open Scope R_scope.

Lemma idf_ge_1 n df : (df ≤ n)%nat → 1 <= idf n df.
Proof.
  intros Hle. unfold idf.
  assert (0 < 1 + INR df) as Hdf by (pose proof (pos_INR df); lra).
  assert (1 <= (1 + INR n) / (1 + INR df)) as Hratio.
  { apply le_INR in Hle. apply (Rmult_le_reg_r (1 + INR df)); [done|].
    unfold Rdiv. rewrite Rmult_assoc, Rinv_l by lra. lra. }
  destruct Hratio as [Hlt| <-]; [|rewrite ln_1; lra].
  pose proof (ln_increasing 1 _ ltac:(lra) Hlt) as Hln.
  rewrite ln_1 in Hln. lra.
Qed.

Lemma zero_vector_normalize v : zero_vector (normalize v) → zero_vector v.
Proof.
  unfold normalize. destruct (Req_dec_T (norm_l2 v) 0) as [|Hn]; [done|].
  unfold zero_vector. rewrite Forall_fmap. intros Hz.
  eapply Forall_impl; [exact Hz|].
  intros x Hx. simpl in Hx. unfold Rdiv in Hx.
  apply Rmult_integral in Hx as [?|Hinv]; [done|].
  by apply Rinv_neq_0_compat in Hn.
Qed.

(** The row of a document with a term of the vocabulary is not zero. *)
Lemma tfidf_row_nonzero stop_words vocab corpus doc term :
  term ∈ vocab → term ∈ analyze stop_words doc →
  ¬ zero_vector (normalize (tfidf_row stop_words vocab corpus doc)).
Proof.
  intros Hvoc Hdoc Hz%zero_vector_normalize.
  unfold zero_vector, tfidf_row in Hz. rewrite Forall_fmap in Hz.
  eapply Forall_forall in Hz; [|done]. simpl in Hz.
  assert (1 <= INR (count term (analyze stop_words doc))) as Hcount.
  { change 1 with (INR 1). apply le_INR. unfold count.
    destruct (filter _ _) as [|? ?] eqn:Hf; simpl; [|lia].
    by eapply (filter_nil_not_elem_of _ _ term) in Hf. }
  pose proof (idf_ge_1 (length corpus) (doc_freq stop_words term corpus)
                (length_filter _ _)) as Hidf.
  nra.
Qed.

Lemma fit_transform_eq stop_words corpus :
  vocabulary stop_words corpus ≠ [] →
  fit_transform stop_words corpus
  = Ok ((λ doc, normalize (tfidf_row stop_words (vocabulary stop_words corpus)
                             corpus doc)) <$> corpus).
Proof.
  intros Hv. unfold fit_transform. by destruct (vocabulary _ _).
Qed.

End Weights.

(** * An existing title, end to end *)

Section Existing.
Import Notions PandasFacts Example Sklearn.

Variables stopwords stop_words : list string.

(** What a call for an existing title comes to. *)
Lemma initialize_existing h df d title column top_n cells :
  h !! df = Some d →
  Pandas.getitem d column = Ok cells →
  initialize_frame_for_recommender stopwords stop_words
    df title column top_n false h
  = ('(_, _, cosine_sim) ←
       dataframe_column_to_cosine_sim stop_words df "cleaned_column";
     get_recommendations title cosine_sim df column top_n)
      (<[df := Pandas.setitem d "cleaned_column"
                 (cleaned_cells stopwords cells)]> h).
Proof.
  intros Hd Hcells. unfold initialize_frame_for_recommender.
  cbv [mbind M_bind mret M_ret lift load store alloc raise].
  rewrite Hd, Hcells, lookup_insert_eq, getitem_setitem_eq. done.
Qed.

Lemma sorted_desc_tie (a c : R) :
  (c <= a)%R →
  sorted_desc (enumerate [a; a; c]) = [(0, a); (1, a); (2, c)].
Proof.
  intros Hc. unfold sorted_desc, enumerate.
  repeat (simpl; case_decide; try lra). done.
Qed.

End Existing.

Section EndToEnd.
Import Notions PandasFacts Ranking Lookup Kernel Weights Example Sklearn.
Local Open Scope R_scope.

(** The same through the frame preparer: asked for the second task of
    [reworded], it returns the second task first. *)
Lemma preparer_returns_query :
  ∃ h' res,
    initialize_frame_for_recommender some_stopwords some_stopwords
      0%nat "Fix the server outage!" "Task" 2 false (store_of reworded)
    = (h', Ok res)
    ∧ Pandas.getitem res "Task"
      = Ok [VStr "Fix the server outage!"; VStr "plan holiday party"].
Proof.
  rewrite (initialize_existing some_stopwords some_stopwords _ _ reworded
             _ _ _ [VStr "fix the server outage";
                    VStr "Fix the server outage!";
                    VStr "plan holiday party"]) by reflexivity.
  set (docs := ["fix server outage"; "fix server outage";
                "plan holiday party"]%string).
  assert (cleaned_cells some_stopwords
            [VStr "fix the server outage"; VStr "Fix the server outage!";
             VStr "plan holiday party"] = VStr <$> docs) as -> by by vm_compute.
  set (w := Pandas.setitem reworded "cleaned_column" (VStr <$> docs)).
  set (vocab := vocabulary some_stopwords docs).
  set (r0 := normalize (tfidf_row some_stopwords vocab docs "fix server outage")).
  set (r2 := normalize (tfidf_row some_stopwords vocab docs "plan holiday party")).
  assert (fit_transform some_stopwords docs = Ok [r0; r0; r2]) as HX.
  { rewrite fit_transform_eq by by_computation. done. }
  rewrite run_bind.
  rewrite (dataframe_column_to_cosine_sim_ok some_stopwords _ 0%nat w
             "cleaned_column" (VStr <$> docs) docs [r0; r0; r2]);
    [|apply lookup_insert_eq|reflexivity|reflexivity|exact HX].
  assert (dot r0 r0 = 1) as H00.
  { destruct (normalize_cases
                (tfidf_row some_stopwords vocab docs "fix server outage"))
      as [Hz|[_ ?]]; [|done].
    exfalso. revert Hz.
    apply (tfidf_row_nonzero _ _ _ _ "fix"%string); by_computation. }
  assert (dot r0 r2 <= 1) as H02.
  { apply dot_unit_le; [|done|apply normalize_dot_le].
    unfold r0, r2, tfidf_row. by rewrite !length_normalize, !length_fmap. }
  erewrite (get_recommendations_located _ 0%nat w _ _ _ _ _ 1%nat
              [dot r0 r0; dot r0 r0; dot r0 r2]);
    [|lia|apply lookup_insert_eq|reflexivity|reflexivity|reflexivity| |reflexivity].
  - unfold recommend_from. rewrite sorted_desc_tie by lra.
    eexists _, _. split; reflexivity.
  - intros [|[|[|j]]]; simpl; [done..|]. by destruct j.
Qed.

End EndToEnd.

(** * More on the text cleaner *)

Section CleanerMore.
Import Text Notions TextFacts.

Variable stopwords : list string.

Lemma lower_char_idem c : lower_char (lower_char c) = lower_char c.
Proof. by_cases_on c. Qed.

Lemma blank_lower_blank c : blank (lower_char (blank c)) = blank (lower_char c).
Proof. by_cases_on c. Qed.

Lemma lower_idem x : lower (lower x) = lower x.
Proof.
  unfold lower. induction x as [|c x IH]; cbn [map_chars]; [done|].
  by rewrite lower_char_idem, IH.
Qed.

Lemma normalise_blanked x :
  blank_non_alnum (lower (blank_non_alnum x)) = blank_non_alnum (lower x).
Proof.
  unfold blank_non_alnum, lower.
  induction x as [|c x IH]; cbn [map_chars]; [done|].
  by rewrite blank_lower_blank, IH.
Qed.

(** X1. On a text of ASCII characters [cleaner] ignores case and
    punctuation: the lower-cased text, and the text with every character
    outside [A-Za-z0-9] blanked, clean to what the text cleans to. *)
Theorem cleaner_ignores_case_and_punctuation (x : string) :
  ascii_only x →
  cleaner stopwords (lower x) = cleaner stopwords x
  ∧ cleaner stopwords (blank_non_alnum x) = cleaner stopwords x.
Proof.
  intros _. unfold cleaner. by rewrite lower_idem, normalise_blanked.
Qed.

(** X2. The cleaned text is its tokens joined by single blanks, and every
    token is a non-empty word of lower-case letters and digits that is no
    stop word: no upper case, punctuation, doubled or outer blank, or stop
    word survives. *)
Theorem cleaner_output (x : string) :
  let tokens := split (cleaner stopwords x) in
  cleaner stopwords x = join tokens
  ∧ Forall (λ t, t ≠ EmptyString ∧ all_chars low_alnum t ∧ t ∉ stopwords)
      tokens.
Proof.
  destruct (cleaner_tokens stopwords x) as (ts & Hx & Hts & Hns).
  destruct (split_cleaner stopwords x) as (ts' & Hx' & Hsplit).
  simpl. rewrite Hsplit. split; [done|].
  assert (ts' = ts) as ->.
  { rewrite <-Hsplit, Hx. apply split_join.
    eapply Forall_impl; [exact Hts|]. intros t Ht. by destruct Ht as (? & _). }
  apply Forall_forall. intros t Ht.
  eapply Forall_forall in Hts; [|done]. eapply Forall_forall in Hns; [|done].
  destruct Hts as ([? _] & ? & _). done.
Qed.

End CleanerMore.

(** * More on the similarity matrix *)

Module KernelMore.
Import Notions Sklearn Kernel Weights.
Local Open Scope R_scope.

Lemma dot_nil_r v : dot v [] = 0.
Proof. by destruct v. Qed.

Lemma dot_scaled c c' u v :
  dot ((λ x, x * c) <$> u) ((λ x, x * c') <$> v) = c * c' * dot u v.
Proof.
  revert v. induction u as [|x u IH]; intros [|y v];
    try (unfold dot; simpl; lra).
  rewrite !fmap_cons, !dot_cons, IH. lra.
Qed.

(** Normalising multiplies the row by a positive factor. *)
Lemma normalize_scale v :
  ∃ c, 0 < c ∧ normalize v = (λ x, x * c) <$> v.
Proof.
  unfold normalize. destruct (Req_dec_T (norm_l2 v) 0) as [Hz|Hnz].
  - exists 1. split; [lra|]. rewrite <-(list_fmap_id v) at 1.
    apply list_fmap_ext. intros _ x _. simpl. lra.
  - exists (/ norm_l2 v). split; [|done].
    apply Rinv_0_lt_compat. pose proof (sqrt_pos (dot v v)).
    unfold norm_l2 in *. lra.
Qed.

Lemma dot_nonneg u v :
  Forall (λ x, 0 <= x) u → Forall (λ x, 0 <= x) v → 0 <= dot u v.
Proof.
  intros Hu. revert v. induction Hu as [|x u Hx _ IH]; intros v Hv.
  { unfold dot. simpl. lra. }
  destruct Hv as [|y v Hy Hv]; [unfold dot; simpl; lra|].
  rewrite dot_cons. specialize (IH v Hv). nra.
Qed.

Lemma tfidf_row_nonneg stop_words vocab corpus doc :
  Forall (λ x, 0 <= x) (tfidf_row stop_words vocab corpus doc).
Proof.
  unfold tfidf_row. apply Forall_fmap, Forall_forall. intros term _. simpl.
  pose proof (pos_INR (count term (analyze stop_words doc))).
  pose proof (idf_ge_1 (length corpus) (doc_freq stop_words term corpus)
                (length_filter _ _)).
  nra.
Qed.

Lemma dot_le_1 u v :
  length u = length v → dot u u <= 1 → dot v v <= 1 → dot u v <= 1.
Proof. intros Hlen Hu Hv. pose proof (dot_diff u v Hlen). lra. Qed.

(** The rows of two documents without a common term are orthogonal. *)
Lemma dot_tfidf_rows_disjoint stop_words vocab corpus doc doc' :
  (∀ t, t ∈ analyze stop_words doc → t ∉ analyze stop_words doc') →
  dot (tfidf_row stop_words vocab corpus doc)
      (tfidf_row stop_words vocab corpus doc') = 0.
Proof.
  intros Hdis. unfold tfidf_row.
  induction vocab as [|t vocab IH]; [done|].
  rewrite !fmap_cons, dot_cons, IH.
  assert (count t (analyze stop_words doc) = 0%nat
          ∨ count t (analyze stop_words doc') = 0%nat) as [-> | ->].
  { unfold count.
    destruct (decide (t ∈ analyze stop_words doc)) as [Hin|Hout].
    - right. apply Hdis in Hin.
      destruct (filter _ (analyze stop_words doc')) as [|t' ?] eqn:Hf; [done|].
      assert (t' ∈ filter (λ t0, t0 = t) (analyze stop_words doc')) as Ht'
        by (rewrite Hf; left).
      apply list_elem_of_filter in Ht' as [-> ?]. done.
    - left.
      destruct (filter _ (analyze stop_words doc)) as [|t' ?] eqn:Hf; [done|].
      assert (t' ∈ filter (λ t0, t0 = t) (analyze stop_words doc)) as Ht'
        by (rewrite Hf; left).
      apply list_elem_of_filter in Ht' as [-> ?]. done. }
  all: simpl; lra.
Qed.

Lemma tfidf_row_no_term stop_words vocab corpus doc :
  analyze stop_words doc = [] →
  zero_vector (tfidf_row stop_words vocab corpus doc).
Proof.
  intros Hdoc. unfold zero_vector, tfidf_row. apply Forall_fmap, Forall_forall.
  intros t _. simpl. rewrite Hdoc. unfold count. simpl. lra.
Qed.

Lemma zero_vector_scaled c v :
  zero_vector v → zero_vector ((λ x, x * c) <$> v).
Proof.
  unfold zero_vector. intros Hv. apply Forall_fmap.
  eapply Forall_impl; [exact Hv|]. intros x ->. simpl. lra.
Qed.

Lemma elem_of_vocabulary stop_words corpus t :
  t ∈ vocabulary stop_words corpus
  ↔ ∃ doc, doc ∈ corpus ∧ t ∈ analyze stop_words doc.
Proof.
  unfold vocabulary. rewrite merge_sort_Permutation, elem_of_remove_dups.
  rewrite list_elem_of_In, in_flat_map. by setoid_rewrite list_elem_of_In.
Qed.

Lemma vocabulary_nil stop_words corpus :
  vocabulary stop_words corpus = []
  ↔ Forall (λ doc, analyze stop_words doc = []) corpus.
Proof.
  split.
  - intros Hv. apply Forall_forall. intros doc Hdoc.
    destruct (analyze stop_words doc) as [|t ts] eqn:Ha; [done|].
    assert (t ∈ vocabulary stop_words corpus) as Ht.
    { apply elem_of_vocabulary. exists doc. split; [done|]. rewrite Ha. left. }
    rewrite Hv in Ht. by apply elem_of_nil in Ht.
  - intros Hall. destruct (vocabulary stop_words corpus) as [|t ts] eqn:Hv; [done|].
    assert (t ∈ vocabulary stop_words corpus) as Ht by (rewrite Hv; left).
    apply elem_of_vocabulary in Ht as (doc & Hdoc & Ht).
    eapply Forall_forall in Hall; [|done]. rewrite Hall in Ht.
    by apply elem_of_nil in Ht.
Qed.

Lemma dot_diff_eq u v :
  length u = length v →
  dot (zip_with Rminus u v) (zip_with Rminus u v)
  = dot u u - 2 * dot u v + dot v v.
Proof.
  revert v. induction u as [|x u IH]; intros [|y v] Hlen; try done.
  { unfold dot. simpl. lra. }
  simpl in Hlen. simpl. rewrite !dot_cons, IH by lia. lra.
Qed.

Lemma zero_difference u v :
  length u = length v → zero_vector (zip_with Rminus u v) → u = v.
Proof.
  revert v. induction u as [|x u IH]; intros [|y v] Hlen Hz; try done.
  simpl in *. apply Forall_cons in Hz as [Hxy Hz].
  f_equal; [lra|]. apply IH; [lia|done].
Qed.

(** Unit vectors with dot product 1 are the same vector. *)
Lemma dot_unit_1 u v :
  length u = length v → dot u u = 1 → dot v v <= 1 → 1 <= dot u v → u = v.
Proof.
  intros Hlen Hu Hv Huv. apply zero_difference; [done|].
  apply dot_self_zero. pose proof (dot_diff_eq u v Hlen) as Heq.
  pose proof (dot_self_nonneg (zip_with Rminus u v)). lra.
Qed.

Lemma tfidf_row_same_terms stop_words vocab corpus doc doc' :
  analyze stop_words doc = analyze stop_words doc' →
  tfidf_row stop_words vocab corpus doc = tfidf_row stop_words vocab corpus doc'.
Proof. intros Ha. unfold tfidf_row. by rewrite Ha. Qed.

Lemma tfidf_row_lookup stop_words vocab corpus doc k t :
  vocab !! k = Some t →
  tfidf_row stop_words vocab corpus doc !! k
  = Some (INR (count t (analyze stop_words doc))
          * idf (length corpus) (doc_freq stop_words t corpus)).
Proof. intros Hk. unfold tfidf_row. by rewrite list_lookup_fmap, Hk. Qed.

Lemma count_pos (t : string) tokens : t ∈ tokens → (0 < count t tokens)%nat.
Proof.
  intros Ht. unfold count.
  destruct (filter _ tokens) as [|? ?] eqn:Hf; simpl; [|lia].
  by eapply (filter_nil_not_elem_of _ _ t) in Hf.
Qed.

Lemma count_zero (t : string) tokens : t ∉ tokens → count t tokens = 0%nat.
Proof.
  intros Ht. unfold count.
  destruct (filter _ tokens) as [|t' ?] eqn:Hf; [done|].
  assert (t' ∈ filter (λ t0, t0 = t) tokens) as Ht' by (rewrite Hf; left).
  apply list_elem_of_filter in Ht' as [-> ?]. done.
Qed.

End KernelMore.

Section SimilarityMore.
Import Notions Sklearn Kernel Weights KernelMore PandasFacts.
Local Open Scope R_scope.

Variable stop_words : list string.

Lemma as_string_all cells docs :
  mapM as_string cells = Ok docs ↔ cells = VStr <$> docs.
Proof.
  revert docs. induction cells as [|c cells IH]; intros docs.
  { split; [intros [= <-]|intros Hd; symmetry in Hd;
                           apply fmap_nil_inv in Hd as ->]; done. }
  change (mapM as_string (c :: cells))
    with (z ← as_string c; k ← mapM as_string cells; mret (z :: k)).
  split.
  - destruct c as [z|s|]; simpl; try done.
    destruct (mapM as_string cells) as [k|] eqn:Hk; simpl; [|done].
    intros [= <-]. rewrite fmap_cons. f_equal. by apply IH.
  - destruct docs as [|doc docs]; [done|]. rewrite fmap_cons.
    intros [= -> Hcells]. simpl. apply IH in Hcells. by rewrite Hcells.
Qed.

(** What the matrix holds: the dot products of the normalised rows of the
    documents. *)
Lemma similarity_cells h df column h' corpus X sim :
  dataframe_column_to_cosine_sim stop_words df column h
  = (h', Ok (corpus, X, sim)) →
  ∃ d docs,
    h' = h ∧ h !! df = Some d ∧ Pandas.getitem d column = Ok corpus
    ∧ corpus = VStr <$> docs
    ∧ vocabulary stop_words docs ≠ []
    ∧ X = (λ doc, normalize (tfidf_row stop_words
                               (vocabulary stop_words docs) docs doc))
            <$> docs
    ∧ sim = linear_kernel X X.
Proof.
  unfold dataframe_column_to_cosine_sim.
  cbv [mbind M_bind mret M_ret lift load].
  destruct (h !! df) as [d|]; [|done].
  destruct (Pandas.getitem d column) as [cells|] eqn:Hcells; [|done].
  destruct (mapM as_string cells) as [docs|] eqn:Hdocs; [|done].
  destruct (fit_transform stop_words docs) as [X'|] eqn:HX; [|done].
  intros [= <- <- <- <-]. exists d, docs.
  apply as_string_all in Hdocs.
  destruct (decide (vocabulary stop_words docs = [])) as [Hv|Hv].
  { unfold fit_transform in HX. by rewrite Hv in HX. }
  rewrite fit_transform_eq in HX by done. simplify_eq. by split_and!.
Qed.

Lemma similarity_cell docs i j :
  let row doc := normalize (tfidf_row stop_words
                              (vocabulary stop_words docs) docs doc) in
  cell (linear_kernel (row <$> docs) (row <$> docs)) i j
  = di ← docs !! i; dj ← docs !! j; Some (dot (row di) (row dj)).
Proof.
  intros row. rewrite cell_linear_kernel, !list_lookup_fmap.
  destruct (docs !! i); simpl; [|done]. by destruct (docs !! j).
Qed.

Lemma row_length docs doc :
  length (normalize (tfidf_row stop_words (vocabulary stop_words docs)
                       docs doc))
  = length (vocabulary stop_words docs).
Proof. unfold tfidf_row. by rewrite length_normalize, length_fmap. Qed.

Lemma row_nonneg docs doc :
  Forall (λ x, 0 <= x)
    (normalize (tfidf_row stop_words (vocabulary stop_words docs) docs doc)).
Proof.
  destruct (normalize_scale
              (tfidf_row stop_words (vocabulary stop_words docs) docs doc))
    as (c & Hc & ->).
  apply Forall_fmap. eapply Forall_impl; [apply tfidf_row_nonneg|].
  intros x Hx. simpl. nra.
Qed.

(** X3. On a column of ASCII texts the builder fails with the
    empty-vocabulary error of the vectorizer exactly when no text of the
    column keeps a term (a run of two or more word characters that is no
    stop word), an empty column included; otherwise it returns the column,
    the TF-IDF matrix and its kernel.  The store is the same afterwards. *)
Theorem similarity_needs_a_term h df d column docs :
  h !! df = Some d →
  Pandas.getitem d column = Ok (VStr <$> docs) →
  Forall (λ doc, ascii_only doc) docs →
  let run := dataframe_column_to_cosine_sim stop_words df column h in
  run.1 = h
  ∧ (run.2 = Raise EmptyVocabulary
     ↔ Forall (λ doc, analyze stop_words doc = []) docs)
  ∧ (¬ Forall (λ doc, analyze stop_words doc = []) docs →
     ∃ X, run.2 = Ok (VStr <$> docs, X, linear_kernel X X)).
Proof.
  intros Hd Hcells _. simpl.
  destruct (decide (vocabulary stop_words docs = [])) as [Hv|Hv].
  - assert (dataframe_column_to_cosine_sim stop_words df column h
            = (h, Raise EmptyVocabulary)) as ->.
    { unfold dataframe_column_to_cosine_sim.
      cbv [mbind M_bind mret M_ret lift load].
      rewrite Hd, Hcells, (proj2 (as_string_all _ _) eq_refl).
      unfold fit_transform. by rewrite Hv. }
    apply vocabulary_nil in Hv. by split_and!.
  - rewrite (dataframe_column_to_cosine_sim_ok stop_words h df d column
               (VStr <$> docs) docs _ Hd Hcells
               (proj2 (as_string_all _ _) eq_refl)
               (fit_transform_eq _ _ Hv)).
    simpl. rewrite <-vocabulary_nil. split_and!; [done| |by eexists].
    split; [done|]. intros ?. done.
Qed.

(** X4. What the builder returns has the shape of the column: the corpus is
    the column, the TF-IDF matrix has one row for each of its N cells, all
    of one length, and the similarity matrix is N by N.  The store is the
    same afterwards. *)
Theorem similarity_shape h df column h' corpus tfidf_matrix cosine_sim :
  dataframe_column_to_cosine_sim stop_words df column h
  = (h', Ok (corpus, tfidf_matrix, cosine_sim)) →
  h' = h
  ∧ (∃ d, h !! df = Some d ∧ Pandas.getitem d column = Ok corpus)
  ∧ length tfidf_matrix = length corpus
  ∧ (∃ n, Forall (λ row, length row = n) tfidf_matrix)
  ∧ length cosine_sim = length corpus
  ∧ Forall (λ row, length row = length corpus) cosine_sim.
Proof.
  intros (d & docs & -> & Hd & Hcells & -> & Hv & -> & ->)%similarity_cells.
  rewrite length_linear_kernel, !length_fmap.
  split_and!; [done|by exists d|done| |done|].
  - exists (length (vocabulary stop_words docs)).
    apply Forall_fmap, Forall_forall. intros doc _. apply row_length.
  - apply Forall_forall. intros row (i & Hi)%list_elem_of_lookup.
    apply linear_kernel_row in Hi. by rewrite Hi, length_fmap.
Qed.

(** X5. Every entry of the similarity matrix lies between 0 and 1. *)
Theorem similarity_between_0_and_1
    h df column h' corpus tfidf_matrix cosine_sim i j s :
  dataframe_column_to_cosine_sim stop_words df column h
  = (h', Ok (corpus, tfidf_matrix, cosine_sim)) →
  cell cosine_sim i j = Some s →
  0 <= s <= 1.
Proof.
  intros (d & docs & _ & _ & _ & _ & _ & -> & ->)%similarity_cells.
  rewrite similarity_cell.
  destruct (docs !! i) as [di|]; simpl; [|done].
  destruct (docs !! j) as [dj|]; simpl; [|done].
  intros [= <-]. split.
  - apply dot_nonneg; apply row_nonneg.
  - apply dot_le_1; [by rewrite !row_length|apply normalize_dot_le..].
Qed.

(** X6. An ASCII text that keeps no term has a row of zeros in the matrix:
    its similarity to every text is 0, and to itself as well. *)
Theorem similarity_of_text_without_term
    h df column h' corpus tfidf_matrix cosine_sim i doc :
  dataframe_column_to_cosine_sim stop_words df column h
  = (h', Ok (corpus, tfidf_matrix, cosine_sim)) →
  corpus !! i = Some (VStr doc) →
  ascii_only doc →
  analyze stop_words doc = [] →
  (i < length cosine_sim)%nat
  ∧ ∀ j s, cell cosine_sim i j = Some s → s = 0.
Proof.
  intros (d & docs & _ & _ & _ & -> & _ & -> & ->)%similarity_cells Hi _ Hdoc.
  rewrite list_lookup_fmap in Hi.
  destruct (docs !! i) as [di|] eqn:Hdi; simpl in Hi; [|done].
  simplify_eq. split.
  { rewrite length_linear_kernel, length_fmap. by eapply lookup_lt_Some. }
  intros j s. rewrite similarity_cell, Hdi. simpl.
  destruct (docs !! j) as [dj|]; simpl; [|done].
  intros [= <-]. apply dot_zero_l.
  destruct (normalize_scale
              (tfidf_row stop_words (vocabulary stop_words docs) docs doc))
    as (c & _ & ->).
  by apply zero_vector_scaled, tfidf_row_no_term.
Qed.

(** X7. Two ASCII texts without a common term have similarity 0. *)
Theorem similarity_of_disjoint_texts
    h df column h' corpus tfidf_matrix cosine_sim i j doc doc' :
  dataframe_column_to_cosine_sim stop_words df column h
  = (h', Ok (corpus, tfidf_matrix, cosine_sim)) →
  corpus !! i = Some (VStr doc) →
  corpus !! j = Some (VStr doc') →
  ascii_only doc → ascii_only doc' →
  (∀ t, t ∈ analyze stop_words doc → t ∉ analyze stop_words doc') →
  cell cosine_sim i j = Some 0.
Proof.
  intros (d & docs & _ & _ & _ & -> & _ & -> & ->)%similarity_cells
         Hi Hj _ _ Hdis.
  rewrite list_lookup_fmap in Hi, Hj.
  destruct (docs !! i) as [di|] eqn:Hdi; simpl in Hi; [|done].
  destruct (docs !! j) as [dj|] eqn:Hdj; simpl in Hj; [|done].
  simplify_eq. rewrite similarity_cell, Hdi, Hdj. simpl. f_equal.
  destruct (normalize_scale
              (tfidf_row stop_words (vocabulary stop_words docs) docs doc))
    as (c & _ & ->).
  destruct (normalize_scale
              (tfidf_row stop_words (vocabulary stop_words docs) docs doc'))
    as (c' & _ & ->).
  rewrite dot_scaled, dot_tfidf_rows_disjoint by done. lra.
Qed.

(** X8. Two ASCII texts with the same terms have the same row in the
    matrix, and when they keep a term their similarity is 1 in exact
    arithmetic: texts that differ only in what the analyzer drops tie with
    each other. *)
Theorem similarity_of_same_terms
    h df column h' corpus tfidf_matrix cosine_sim i j doc doc' :
  dataframe_column_to_cosine_sim stop_words df column h
  = (h', Ok (corpus, tfidf_matrix, cosine_sim)) →
  corpus !! i = Some (VStr doc) →
  corpus !! j = Some (VStr doc') →
  ascii_only doc → ascii_only doc' →
  analyze stop_words doc = analyze stop_words doc' →
  cosine_sim !! i = cosine_sim !! j
  ∧ (analyze stop_words doc ≠ [] → cell cosine_sim i j = Some 1).
Proof.
  intros (d & docs & _ & _ & _ & -> & _ & -> & ->)%similarity_cells
         Hi Hj _ _ Ha.
  rewrite list_lookup_fmap in Hi, Hj.
  destruct (docs !! i) as [di|] eqn:Hdi; simpl in Hi; [|done].
  destruct (docs !! j) as [dj|] eqn:Hdj; simpl in Hj; [|done].
  simplify_eq. split.
  - unfold linear_kernel. rewrite !list_lookup_fmap, Hdi, Hdj. simpl.
    by rewrite (tfidf_row_same_terms _ _ _ doc doc').
  - intros Hne. rewrite similarity_cell, Hdi, Hdj. simpl. f_equal.
    rewrite <-(tfidf_row_same_terms _ _ _ doc doc') by done.
    destruct (normalize_cases
                (tfidf_row stop_words (vocabulary stop_words docs) docs doc))
      as [Hz|[_ ?]]; [exfalso|done].
    destruct (analyze stop_words doc) as [|t ts] eqn:Hdoc; [done|].
    revert Hz. apply (tfidf_row_nonzero _ _ _ _ t).
    + apply elem_of_vocabulary. exists doc.
      split; [by eapply list_elem_of_lookup_2|]. rewrite Hdoc. left.
    + rewrite Hdoc. left.
Qed.

(** Rows of texts that differ in a term have a dot product below 1. *)
Lemma dot_rows_below_1 docs doc doc' t :
  doc ∈ docs →
  t ∈ analyze stop_words doc →
  t ∉ analyze stop_words doc' →
  dot (normalize (tfidf_row stop_words (vocabulary stop_words docs) docs doc))
      (normalize (tfidf_row stop_words (vocabulary stop_words docs) docs doc'))
  < 1.
Proof.
  intros Hdoc Ht Ht'.
  set (vocab := vocabulary stop_words docs).
  set (u := tfidf_row stop_words vocab docs doc).
  set (v := tfidf_row stop_words vocab docs doc').
  assert (t ∈ vocab) as Hvoc.
  { apply elem_of_vocabulary. by exists doc. }
  assert (dot (normalize u) (normalize u) = 1) as Hu.
  { destruct (normalize_cases u) as [Hz|[_ ?]]; [exfalso|done].
    revert Hz. by apply (tfidf_row_nonzero _ _ _ _ t). }
  destruct (Rlt_dec (dot (normalize u) (normalize v)) 1) as [|Hge]; [done|].
  exfalso.
  assert (normalize u = normalize v) as Heq.
  { apply dot_unit_1; [|done|apply normalize_dot_le|lra].
    unfold u, v, vocab. by rewrite !row_length. }
  apply list_elem_of_lookup in Hvoc as (k & Hk).
  destruct (normalize_scale u) as (c & Hc & Hnu).
  destruct (normalize_scale v) as (c' & Hc' & Hnv).
  assert (normalize u !! k = normalize v !! k) as Hlk by by rewrite Heq.
  rewrite Hnu, Hnv, !list_lookup_fmap in Hlk. unfold u, v in Hlk.
  rewrite !(tfidf_row_lookup _ _ _ _ k t) in Hlk by done. simpl in Hlk.
  rewrite (count_zero t (analyze stop_words doc')) in Hlk by done.
  simplify_eq.
  pose proof (count_pos t _ Ht) as Hcount. apply lt_INR in Hcount.
  pose proof (idf_ge_1 (length docs) (doc_freq stop_words t docs)
                (length_filter _ _)).
  simpl in *.
  assert (0 < INR (count t (analyze stop_words doc))
              * idf (length docs) (doc_freq stop_words t docs) * c) as Hpos
    by (repeat apply Rmult_lt_0_compat; lra).
  lra.
Qed.

(** X9. The similarity of two texts is below 1 as soon as one of them has a
    term that the other lacks. *)
Theorem similarity_below_1
    h df column h' corpus tfidf_matrix cosine_sim i j doc doc' t s :
  dataframe_column_to_cosine_sim stop_words df column h
  = (h', Ok (corpus, tfidf_matrix, cosine_sim)) →
  corpus !! i = Some (VStr doc) →
  corpus !! j = Some (VStr doc') →
  t ∈ analyze stop_words doc →
  t ∉ analyze stop_words doc' →
  cell cosine_sim i j = Some s →
  s < 1.
Proof.
  intros (d & docs & _ & _ & _ & -> & _ & -> & ->)%similarity_cells
         Hi Hj Ht Ht'.
  rewrite list_lookup_fmap in Hi, Hj.
  destruct (docs !! i) as [di|] eqn:Hdi; simpl in Hi; [|done].
  destruct (docs !! j) as [dj|] eqn:Hdj; simpl in Hj; [|done].
  simplify_eq. rewrite similarity_cell, Hdi, Hdj. simpl. intros [= <-].
  apply (dot_rows_below_1 _ _ _ t); [|done..].
  by eapply list_elem_of_lookup_2.
Qed.

End SimilarityMore.

(** * More on the recommender *)

Module RankingMore.
Import Notions Ranking.

Lemma insert_desc_sorted x l :
  StronglySorted (λ a b, (b.2 <= a.2)%R) l →
  StronglySorted (λ a b, (b.2 <= a.2)%R) (insert_desc x l).
Proof.
  induction 1 as [|y l Hl IH Hy]; simpl; [repeat constructor|].
  case_decide as Hxy.
  - constructor; [done|]. rewrite insert_desc_perm.
    constructor; [lra|done].
  - constructor; [by constructor|]. constructor; [lra|].
    eapply Forall_impl; [exact Hy|]. intros z Hz. simpl in *. lra.
Qed.

Lemma sorted_desc_sorted l :
  StronglySorted (λ a b, (b.2 <= a.2)%R) (sorted_desc l).
Proof.
  induction l as [|x l IH]; simpl; [constructor|].
  by apply insert_desc_sorted.
Qed.

Lemma strongly_sorted_lookup {A} (R : relation A) l a b x y :
  StronglySorted R l → l !! a = Some x → l !! b = Some y → a < b → R x y.
Proof.
  intros Hl. revert a b. induction Hl as [|z l Hl IH Hz]; intros a b; [done|].
  destruct a as [|a], b as [|b]; simpl; try lia.
  - intros [= <-] Hb _. eapply Forall_forall in Hz; [done|].
    by eapply list_elem_of_lookup_2.
  - intros Ha Hb ?. apply (IH a b); [done..|lia].
Qed.

Lemma elem_of_enumerate {A} (l : list A) p x :
  (p, x) ∈ enumerate l ↔ l !! p = Some x.
Proof.
  unfold enumerate. rewrite elem_of_lookup_imap. split.
  - intros (i & y & [= -> ->] & ?). done.
  - intros Hp. by exists p, x.
Qed.

Lemma elem_of_sorted_enumerate scores p x :
  (p, x) ∈ sorted_desc (enumerate scores) ↔ scores !! p = Some x.
Proof. by rewrite sorted_desc_perm, elem_of_enumerate. Qed.

Lemma item_indices_NoDup scores top_n : NoDup (item_indices scores top_n).
Proof.
  unfold item_indices. pose proof (sorted_enumerate_fst scores) as Hperm.
  assert (NoDup (sorted_desc (enumerate scores)).*1) as Hnd.
  { rewrite Hperm. apply NoDup_seq. }
  revert Hnd. generalize (sorted_desc (enumerate scores)). intros l Hnd.
  rewrite fmap_take, fmap_drop.
  apply (sublist_NoDup _ (l.*1)).
  - exact Hnd.
  - transitivity (drop 1 l.*1); [apply sublist_take|apply sublist_drop].
Qed.

(** The selected positions, with their scores: the pairs sorted second to
    [top_n + 1]-th. *)
Lemma item_indices_lookup scores top_n a p :
  item_indices scores top_n !! a = Some p →
  ∃ s, scores !! p = Some s
       ∧ sorted_desc (enumerate scores) !! (S a) = Some (p, s)
       ∧ a < Z.to_nat top_n.
Proof.
  unfold item_indices. rewrite list_lookup_fmap.
  destruct (take _ _ !! a) as [[p' s]|] eqn:Ha; simpl; [|done].
  intros [= ->]. apply lookup_take_Some in Ha as [Ha Hlt].
  rewrite lookup_drop in Ha. simpl in Ha. exists s. split_and!; [|done..].
  apply elem_of_sorted_enumerate. by eapply list_elem_of_lookup_2.
Qed.

(** The rows come by decreasing score. *)
Lemma item_indices_sorted scores top_n a b pa pb sa sb :
  a < b →
  item_indices scores top_n !! a = Some pa →
  item_indices scores top_n !! b = Some pb →
  scores !! pa = Some sa → scores !! pb = Some sb →
  (sb <= sa)%R.
Proof.
  intros Hab (sa' & Hsa & Ha & _)%item_indices_lookup
         (sb' & Hsb & Hb & _)%item_indices_lookup Hpa Hpb.
  assert (sa' = sa) as -> by congruence.
  assert (sb' = sb) as -> by congruence.
  apply (strongly_sorted_lookup (λ a b : nat * R, (b.2 <= a.2)%R)
           (sorted_desc (enumerate scores)) (S a) (S b) (pa, sa) (pb, sb)
           (sorted_desc_sorted _)); [done..|lia].
Qed.

(** The pair sorted first has the greatest score, and a row that is
    neither this one nor selected has a score that no selected row is
    below. *)
Lemma item_indices_best scores top_n :
  scores ≠ [] →
  ∃ q0 s0,
    scores !! q0 = Some s0
    ∧ (q0 ∉ item_indices scores top_n)
    ∧ (∀ q s, scores !! q = Some s → (s <= s0)%R)
    ∧ (∀ q s p sp,
         scores !! q = Some s → q ≠ q0 → q ∉ item_indices scores top_n →
         p ∈ item_indices scores top_n → scores !! p = Some sp →
         (s <= sp)%R).
Proof.
  intros Hne.
  pose proof (sorted_desc_sorted (enumerate scores)) as Hsorted.
  pose proof (sorted_enumerate_fst scores) as Hfst.
  destruct (sorted_desc (enumerate scores)) as [|[q0 s0] rest] eqn:HL.
  { apply Permutation_length in Hfst. simpl in Hfst.
    rewrite length_seq in Hfst. by destruct scores. }
  assert (∀ p x, (p, x) ∈ (q0, s0) :: rest ↔ scores !! p = Some x) as Hin.
  { intros p x. rewrite <-HL. apply elem_of_sorted_enumerate. }
  assert (NoDup (q0 :: rest.*1)) as Hnd.
  { simpl in Hfst. rewrite Hfst. apply NoDup_seq. }
  apply NoDup_cons in Hnd as [Hq0 Hnd].
  assert (∀ a p, item_indices scores top_n !! a = Some p →
                 ∃ s, rest !! a = Some (p, s) ∧ a < Z.to_nat top_n) as Hsel.
  { intros a p (s & _ & Ha & Hlt)%item_indices_lookup.
    rewrite HL in Ha. simpl in Ha. eauto. }
  exists q0, s0. split_and!.
  - apply Hin. left.
  - intros (a & Ha)%list_elem_of_lookup.
    destruct (Hsel _ _ Ha) as (s & Hr & _). apply Hq0.
    apply list_elem_of_fmap. exists (q0, s). split; [done|].
    by eapply list_elem_of_lookup_2.
  - intros q s Hq. apply Hin in Hq.
    apply StronglySorted_inv in Hsorted as [_ Hall].
    apply elem_of_cons in Hq as [[= -> ->]|Hq]; [lra|].
    eapply Forall_forall in Hall; [|done]. done.
  - intros q s p sp Hq Hne0 Hnot (a & Ha)%list_elem_of_lookup Hp.
    destruct (Hsel _ _ Ha) as (sp' & Hra & Hlt).
    assert (sp' = sp) as ->.
    { assert ((p, sp') ∈ (q0, s0) :: rest) as Hp'
        by (right; by eapply list_elem_of_lookup_2).
      apply Hin in Hp'. congruence. }
    apply Hin in Hq. apply elem_of_cons in Hq as [[= -> ->]|Hq]; [done|].
    apply list_elem_of_lookup in Hq as (b & Hb).
    destruct (decide (b < Z.to_nat top_n)) as [Hlt'|Hge].
    { exfalso. apply Hnot. unfold item_indices. rewrite HL. simpl.
      rewrite drop_0. apply list_elem_of_fmap. exists (q, s). split; [done|].
      apply elem_of_take. eauto. }
    apply StronglySorted_inv in Hsorted as [Hsorted _].
    apply (strongly_sorted_lookup _ _ a b (p, sp) (q, s) Hsorted);
      [done..|lia].
Qed.

End RankingMore.

Section RecommendMore.
Import Notions Raises PandasFacts Ranking Lookup RankingMore.

Lemma pick_range n ps :
  Forall (λ p, p < n) ps →
  Pandas.pick (Pandas.range_index n) ps = Some (Z.of_nat <$> ps).
Proof.
  intros Hps. unfold Pandas.pick. apply mapM_Some.
  apply Forall2_fmap_r, Forall_Forall2_diag.
  eapply Forall_impl; [exact Hps|]. intros p Hp. simpl.
  unfold Pandas.range_index. by rewrite list_lookup_fmap, lookup_seq_lt.
Qed.

Lemma pick_lookup {A} (l : list A) ps r :
  Pandas.pick l ps = Some r ↔ Forall2 (λ p x, l !! p = Some x) ps r.
Proof. apply mapM_Some. Qed.

(** The selection, cell by cell. *)
Lemma recommend_from_rows scores d column top_n ids cells dls :
  Pandas.getitem d "ID" = Ok ids →
  Pandas.getitem d column = Ok cells →
  Pandas.getitem d "Deadline" = Ok dls →
  length ids = nrows d → length cells = nrows d → length dls = nrows d →
  length scores ≤ nrows d →
  ∃ idx' ids' cells' dls',
    recommend_from scores d column top_n
    = Ok (mkFrame idx' [("ID", ids'); (column, cells'); ("Deadline", dls')])
    ∧ Pandas.pick (index d) (item_indices scores top_n) = Some idx'
    ∧ Pandas.pick ids (item_indices scores top_n) = Some ids'
    ∧ Pandas.pick cells (item_indices scores top_n) = Some cells'
    ∧ Pandas.pick dls (item_indices scores top_n) = Some dls'.
Proof.
  intros H1 H2 H3 L1 L2 L3 Hlen.
  assert (Forall (λ p, p < nrows d) (item_indices scores top_n)) as Hps.
  { eapply Forall_impl; [apply item_indices_lt|]. simpl. lia. }
  destruct (pick_lt (index d) _ Hps) as (idx' & Hidx & _).
  destruct (pick_lt ids (item_indices scores top_n)) as (ids' & Hids & _);
    [by rewrite L1|].
  destruct (pick_lt cells (item_indices scores top_n))
    as (cells' & Hcells & _); [by rewrite L2|].
  destruct (pick_lt dls (item_indices scores top_n)) as (dls' & Hdls & _);
    [by rewrite L3|].
  exists idx', ids', cells', dls'. split; [|done].
  unfold recommend_from. fold (item_indices scores top_n).
  rewrite (project3 _ _ _ _ _ _ _ H1 H2 H3). simpl.
  unfold Pandas.iloc. simpl. by rewrite Hidx, Hids, Hcells, Hdls.
Qed.

(** What [get_recommendations] returns for a title that labels one row,
    cell by cell. *)
Lemma get_recommendations_rows
    h df d title cosine_sim column top_n ids cells dls idx scores :
  (1 < top_n < 20)%Z →
  h !! df = Some d →
  wf_frame d →
  Pandas.getitem d "ID" = Ok ids →
  Pandas.getitem d column = Ok cells →
  Pandas.getitem d "Deadline" = Ok dls →
  cells !! idx = Some (VStr title) →
  (∀ j, cells !! j = Some (VStr title) → j = idx) →
  cosine_sim !! idx = Some scores →
  length scores = nrows d →
  ∃ ids' cells' dls',
    get_recommendations title cosine_sim df column top_n h
    = (<[df := Pandas.reset_index d]> h,
       Ok (mkFrame (Z.of_nat <$> item_indices scores top_n)
             [("ID", ids'); (column, cells'); ("Deadline", dls')]))
    ∧ Forall2 (λ p v, ids !! p = Some v) (item_indices scores top_n) ids'
    ∧ Forall2 (λ p v, cells !! p = Some v) (item_indices scores top_n) cells'
    ∧ Forall2 (λ p v, dls !! p = Some v) (item_indices scores top_n) dls'.
Proof.
  intros Htop Hd Hwf H1 H2 H3 Hidx Huniq Hscores Hlen.
  pose proof (getitem_length _ _ _ Hwf H1) as L1.
  pose proof (getitem_length _ _ _ Hwf H2) as L2.
  pose proof (getitem_length _ _ _ Hwf H3) as L3.
  rewrite (get_recommendations_located _ _ _ _ _ _ _ _ _ _
             Htop Hd H2 L2 Hidx Huniq Hscores).
  destruct (recommend_from_rows scores (Pandas.reset_index d) column top_n
              ids cells dls)
    as (idx' & ids' & cells' & dls' & -> & Hi & Hids & Hcells & Hdls);
    [done..|by rewrite nrows_reset_index|by rewrite nrows_reset_index
     |by rewrite nrows_reset_index|rewrite nrows_reset_index; lia|].
  simpl in Hi. rewrite pick_range in Hi.
  - simplify_eq. exists ids', cells', dls'.
    by rewrite <-!pick_lookup.
  - eapply Forall_impl; [apply item_indices_lt|]. simpl. lia.
Qed.

(** The cells of [column] that [get_recommendations] returns. *)
Lemma get_recommendations_picks
    h df d title cosine_sim column top_n cells idx scores :
  (1 < top_n < 20)%Z →
  h !! df = Some d →
  wf_frame d →
  "ID" ∈ columns d → "Deadline" ∈ columns d →
  Pandas.getitem d column = Ok cells →
  cells !! idx = Some (VStr title) →
  (∀ j, cells !! j = Some (VStr title) → j = idx) →
  cosine_sim !! idx = Some scores →
  length scores = nrows d →
  ∃ res cells',
    get_recommendations title cosine_sim df column top_n h
    = (<[df := Pandas.reset_index d]> h, Ok res)
    ∧ nrows res = Z.to_nat top_n `min` (nrows d - 1)
    ∧ Pandas.getitem res column = Ok cells'
    ∧ Forall2 (λ p v, cells !! p = Some v) (item_indices scores top_n) cells'.
Proof.
  intros Htop Hd Hwf HID HDl Hcells Hidx Huniq Hscores Hlen.
  pose proof (getitem_length _ _ _ Hwf Hcells) as Hclen.
  rewrite (get_recommendations_located _ _ _ _ _ _ _ _ _ _
             Htop Hd Hcells Hclen Hidx Huniq Hscores).
  destruct (recommend_from_ok scores (Pandas.reset_index d) column top_n
              cells) as (res & cells' & -> & Hn & _ & Hres & Hpick);
    [by apply wf_reset_index|done..|rewrite nrows_reset_index; lia|].
  exists res, cells'. rewrite Hn, Hlen. split_and!; [done..|].
  by apply pick_lookup.
Qed.

(** X10. The rows that [get_recommendations] returns for a title that labels
    one row: rows of the table at distinct positions [ps], each labelled by
    its position and with the cells that the table has there under ID,
    [column] and Deadline, in an order in which the score never goes up. *)
Theorem recommendations_are_ranked_rows
    h df d title cosine_sim column top_n ids cells dls idx scores :
  (1 < top_n < 20)%Z →
  h !! df = Some d →
  wf_frame d →
  Pandas.getitem d "ID" = Ok ids →
  Pandas.getitem d column = Ok cells →
  Pandas.getitem d "Deadline" = Ok dls →
  cells !! idx = Some (VStr title) →
  (∀ j, cells !! j = Some (VStr title) → j = idx) →
  cosine_sim !! idx = Some scores →
  length scores = nrows d →
  ∃ ps ids' cells' dls',
    (get_recommendations title cosine_sim df column top_n h).2
    = Ok (mkFrame (Z.of_nat <$> ps)
            [("ID", ids'); (column, cells'); ("Deadline", dls')])
    ∧ NoDup ps
    ∧ Forall2 (λ p v, ids !! p = Some v) ps ids'
    ∧ Forall2 (λ p v, cells !! p = Some v) ps cells'
    ∧ Forall2 (λ p v, dls !! p = Some v) ps dls'
    ∧ ∀ a b pa pb sa sb,
        a < b → ps !! a = Some pa → ps !! b = Some pb →
        scores !! pa = Some sa → scores !! pb = Some sb → (sb <= sa)%R.
Proof.
  intros Htop Hd Hwf H1 H2 H3 Hidx Huniq Hscores Hlen.
  destruct (get_recommendations_rows h df d title cosine_sim column top_n
              ids cells dls idx scores)
    as (ids' & cells' & dls' & -> & Hids & Hcells & Hdls); [done..|].
  exists (item_indices scores top_n), ids', cells', dls'.
  split_and!; [done|apply item_indices_NoDup|done..|].
  intros a b pa pb sa sb. apply item_indices_sorted.
Qed.

(** X11. The rows returned are the best after the one that is dropped: the
    dropped row has a score that no row exceeds, and every other row that
    is not returned has a score that no returned row is below. *)
Theorem recommendations_are_the_best
    h df d title cosine_sim column top_n ids cells dls idx scores :
  (1 < top_n < 20)%Z →
  h !! df = Some d →
  wf_frame d →
  Pandas.getitem d "ID" = Ok ids →
  Pandas.getitem d column = Ok cells →
  Pandas.getitem d "Deadline" = Ok dls →
  cells !! idx = Some (VStr title) →
  (∀ j, cells !! j = Some (VStr title) → j = idx) →
  cosine_sim !! idx = Some scores →
  length scores = nrows d →
  ∃ res dropped s0,
    (get_recommendations title cosine_sim df column top_n h).2 = Ok res
    ∧ scores !! dropped = Some s0
    ∧ (Z.of_nat dropped ∉ index res)
    ∧ (∀ q s, scores !! q = Some s → (s <= s0)%R)
    ∧ (∀ q s p sp,
         scores !! q = Some s → q ≠ dropped → Z.of_nat q ∉ index res →
         Z.of_nat p ∈ index res → scores !! p = Some sp → (s <= sp)%R).
Proof.
  intros Htop Hd Hwf H1 H2 H3 Hidx Huniq Hscores Hlen.
  destruct (get_recommendations_rows h df d title cosine_sim column top_n
              ids cells dls idx scores)
    as (ids' & cells' & dls' & -> & _); [done..|].
  destruct (item_indices_best scores top_n)
    as (q0 & s0 & Hq0 & Hnot & Hmax & Hbest).
  { intros ->. pose proof (getitem_length _ _ _ Hwf H2) as L2.
    apply lookup_lt_Some in Hidx. simpl in Hlen. lia. }
  assert (∀ q, Z.of_nat q ∈ Z.of_nat <$> item_indices scores top_n
               ↔ q ∈ item_indices scores top_n) as Hin.
  { intros q. rewrite list_elem_of_fmap. split; [|by exists q].
    intros (q' & Heq & ?). by apply Nat2Z.inj in Heq as ->. }
  eexists. exists q0, s0. simpl. split_and!; [done..| | |].
  - by rewrite Hin.
  - done.
  - intros q s p sp Hq Hne Hnq Hp Hsp. rewrite Hin in Hnq, Hp.
    by eapply Hbest.
Qed.

(** X12. What a call does to the table of the caller: when [top_n] is
    rejected, nothing; otherwise the table gets the row labels 0, ..., N-1
    and keeps its cells, whether the call returns or raises afterwards. *)
Theorem get_recommendations_resets_index
    h df d title cosine_sim column top_n :
  h !! df = Some d →
  (get_recommendations title cosine_sim df column top_n h).1
  = if bool_decide (1 < top_n < 20)%Z
    then <[df := mkFrame (Z.of_nat <$> seq 0 (nrows d)) (cols d)]> h
    else h.
Proof.
  apply get_recommendations_store.
Qed.

(** X13. A table without the column ID or without the column Deadline: for
    a title that labels one row the call ends with a key error for the
    missing column, after it has reset the row labels of the table. *)
Theorem missing_id_or_deadline
    h df d title cosine_sim column top_n cells idx scores :
  (1 < top_n < 20)%Z →
  h !! df = Some d →
  Pandas.getitem d column = Ok cells →
  length cells = nrows d →
  cells !! idx = Some (VStr title) →
  (∀ j, cells !! j = Some (VStr title) → j = idx) →
  cosine_sim !! idx = Some scores →
  "ID" ∉ columns d ∨ "Deadline" ∉ columns d →
  ∃ key,
    get_recommendations title cosine_sim df column top_n h
    = (<[df := Pandas.reset_index d]> h, Raise (KeyError key))
    ∧ key ∈ ["ID"; "Deadline"] ∧ key ∉ columns d.
Proof.
  intros Htop Hd Hcells Hlen Hidx Huniq Hscores Hmiss.
  rewrite (get_recommendations_located _ _ _ _ _ _ _ _ _ _
             Htop Hd Hcells Hlen Hidx Huniq Hscores).
  unfold recommend_from, Pandas.project. simpl.
  change (Pandas.getitem (Pandas.reset_index d)) with (Pandas.getitem d).
  rewrite Hcells.
  destruct (Pandas.getitem d "ID") as [ids|e] eqn:H1; simpl.
  - destruct (Pandas.getitem d "Deadline") as [dls|e] eqn:H3; simpl.
    + apply getitem_columns in H1, H3. by destruct Hmiss.
    + apply getitem_raise in H3 as [-> ?]. exists "Deadline".
      split_and!; [done|rewrite !elem_of_cons; auto|done].
  - apply getitem_raise in H1 as [-> ?]. exists "ID".
    split_and!; [done|rewrite !elem_of_cons; auto|done].
Qed.

(** ** A title that labels several rows *)

Lemma filter_zip_range (v : value) cells start n z :
  z ∈ (filter (λ e, e.1 = v) (zip cells (Z.of_nat <$> seq start n))).*2 ↔
  ∃ k, z = Z.of_nat (start + k) ∧ k < n ∧ cells !! k = Some v.
Proof.
  rewrite list_elem_of_fmap. split.
  - intros ([c z'] & -> & [Hc (k & Hk)%list_elem_of_lookup]%list_elem_of_filter).
    simpl in *. subst c. rewrite lookup_zip_with in Hk.
    destruct (cells !! k) as [c|] eqn:Hck; simpl in Hk; [|done].
    rewrite list_lookup_fmap in Hk.
    destruct (seq start n !! k) as [m|] eqn:Hm; simpl in Hk; [|done].
    apply lookup_seq in Hm as [-> ?]. simplify_eq. by exists k.
  - intros (k & -> & Hk & Hc). exists (v, Z.of_nat (start + k)).
    split; [done|]. apply list_elem_of_filter. split; [done|].
    apply list_elem_of_lookup. exists k.
    rewrite lookup_zip_with, Hc. simpl.
    by rewrite list_lookup_fmap, lookup_seq_lt.
Qed.

Lemma mapM_row_ok {A} (a : list A) zs :
  Forall (λ z, ∃ k, z = Z.of_nat k ∧ k < length a) zs →
  ∃ rows, mapM (Numpy.row a) zs = Ok rows
          ∧ length rows = length zs ∧ Forall (λ r, r ∈ a) rows.
Proof.
  induction 1 as [|z zs (k & -> & Hk) _ (rows & IH & Hlen & Hin)].
  { by exists []. }
  destruct (lookup_lt_is_Some_2 a k Hk) as [r Hr].
  exists (r :: rows).
  change (mapM (Numpy.row a) (Z.of_nat k :: zs))
    with (y ← Numpy.row a (Z.of_nat k); l ← mapM (Numpy.row a) zs;
          mret (y :: l)).
  rewrite (row_lookup _ _ _ Hr), IH. simpl. split_and!; [done|by f_equal|].
  constructor; [by eapply list_elem_of_lookup_2|done].
Qed.

(** X14. A title that labels two rows or more of a table of N rows, with an
    N by N matrix: the call raises the error of numpy on the comparison of
    whole rows, after it has reset the row labels; no row is chosen. *)
Theorem title_of_several_rows
    h df d title cosine_sim column top_n cells i j :
  (1 < top_n < 20)%Z →
  h !! df = Some d →
  Pandas.getitem d column = Ok cells →
  length cells = nrows d →
  i ≠ j →
  cells !! i = Some (VStr title) →
  cells !! j = Some (VStr title) →
  length cosine_sim = nrows d →
  Forall (λ row, length row = nrows d) cosine_sim →
  get_recommendations title cosine_sim df column top_n h
  = (<[df := Pandas.reset_index d]> h, Raise AmbiguousTruth).
Proof.
  intros Htop Hd Hcells Hlen Hij Hi Hj Hrows Hsq.
  unfold get_recommendations. rewrite !bool_decide_true by lia. simpl.
  cbv [mbind M_bind mret M_ret lift load store raise].
  rewrite Hd, lookup_insert_eq.
  change (Pandas.getitem (Pandas.reset_index d) column)
    with (Pandas.getitem d column).
  rewrite Hcells. simpl. unfold Pandas.series_getitem, Pandas.range_index.
  pose proof (filter_zip_range (VStr title) cells 0 (nrows d)) as Hin.
  assert (2 ≤ nrows d) as Hn.
  { apply lookup_lt_Some in Hi, Hj. lia. }
  destruct ((filter _ _).*2) as [|z1 [|z2 zs]] eqn:Hf.
  - exfalso. eapply elem_of_nil, Hin. exists i.
    split_and!; [done| |done]. apply lookup_lt_Some in Hi. lia.
  - exfalso.
    assert (Z.of_nat i = z1) as Hz1.
    { apply list_elem_of_singleton, Hin. exists i.
      split_and!; [done| |done]. apply lookup_lt_Some in Hi. lia. }
    assert (Z.of_nat j = z1) as Hz2.
    { apply list_elem_of_singleton, Hin. exists j.
      split_and!; [done| |done]. apply lookup_lt_Some in Hj. lia. }
    lia.
  - destruct (mapM_row_ok cosine_sim (z1 :: z2 :: zs))
      as (rows & -> & Hlr & Hall).
    { apply Forall_forall. intros z (k & -> & Hk & _)%Hin.
      exists k. split; [done|lia]. }
    simpl. destruct rows as [|r rows]; [done|].
    apply Forall_cons in Hall as [Hr _].
    eapply Forall_forall in Hsq; [|exact Hr].
    destruct r as [|x [|y r]]; simpl in Hsq; [lia..|]. done.
Qed.

End RecommendMore.

(** * More on the frame preparer *)

Section RankFirst.
Import Notions Sklearn Kernel Weights KernelMore.
Local Open Scope R_scope.

Variable stop_words : list string.

(** The row of a text that keeps a term and differs in a term from each
    text before it is sorted first among its similarities. *)
Lemma similarity_first_in_rank docs idx doc scores :
  docs !! idx = Some doc →
  analyze stop_words doc ≠ [] →
  (∀ j doc', (j < idx)%nat → docs !! j = Some doc' →
             terms_differ stop_words doc' doc) →
  linear_kernel
    ((λ doc, normalize (tfidf_row stop_words (vocabulary stop_words docs)
                          docs doc)) <$> docs)
    ((λ doc, normalize (tfidf_row stop_words (vocabulary stop_words docs)
                          docs doc)) <$> docs) !! idx = Some scores →
  first_in_rank scores idx.
Proof.
  intros Hdoc Hne Hdiff Hscores.
  set (row := λ doc, normalize (tfidf_row stop_words
                                  (vocabulary stop_words docs) docs doc)) in *.
  unfold linear_kernel in Hscores.
  rewrite !list_lookup_fmap, Hdoc in Hscores. simpl in Hscores.
  injection Hscores as <-.
  assert (doc ∈ docs) as Hin by by eapply list_elem_of_lookup_2.
  assert (dot (row doc) (row doc) = 1) as Hself.
  { destruct (normalize_cases
                (tfidf_row stop_words (vocabulary stop_words docs) docs doc))
      as [Hz|[_ ?]]; [exfalso|done].
    destruct (analyze stop_words doc) as [|t ts] eqn:Ha; [done|].
    revert Hz. apply (tfidf_row_nonzero _ _ _ _ t).
    - apply elem_of_vocabulary. exists doc. split; [done|]. rewrite Ha. left.
    - rewrite Ha. left. }
  exists 1. split.
  { rewrite !list_lookup_fmap, Hdoc. simpl. by rewrite Hself. }
  intros j x. rewrite !list_lookup_fmap.
  destruct (docs !! j) as [dj|] eqn:Hdj; simpl; [|done].
  intros [= <-]. split.
  - intros Hlt. destruct (Hdiff j dj Hlt Hdj) as (t & [[Ht Ht']|[Ht Ht']]).
    + rewrite dot_comm. apply (dot_rows_below_1 stop_words docs dj doc t);
        [by eapply list_elem_of_lookup_2|done..].
    + by apply (dot_rows_below_1 stop_words docs doc dj t).
  - intros _. apply dot_le_1; [|apply normalize_dot_le..].
    unfold row. by rewrite !row_length.
Qed.

End RankFirst.

Section PreparerMore.
Import Notions Raises PandasFacts Ranking Lookup Kernel Weights WorkingTable.
Import Sklearn KernelMore.

Variables stopwords stop_words : list string.

Lemma cleaned_vocabulary cells :
  ¬ Forall (λ x, analyze stop_words (cleaner stopwords (py_str x)) = []) cells →
  vocabulary stop_words ((λ x, cleaner stopwords (py_str x)) <$> cells) ≠ [].
Proof.
  intros Hne Hv. apply Hne. apply vocabulary_nil in Hv.
  by rewrite Forall_fmap in Hv.
Qed.

(** X15. A call for an existing title, on a well-formed table with the
    columns ID, [column] and Deadline where [title] labels one row and some
    cleaned text keeps a term: it returns min(top_n, N-1) rows, and the
    table of the caller has changed, it has the cleaned column and the row
    labels 0, ..., N-1.  The row of the title is not returned when its
    cleaned text keeps a term and every other row differs from it in a
    term. *)
Theorem existing_title_recommends h df d title column top_n cells idx :
  (1 < top_n < 20)%Z →
  h !! df = Some d →
  wf_frame d →
  "ID" ∈ columns d → "Deadline" ∈ columns d →
  column ≠ "cleaned_column" →
  Pandas.getitem d column = Ok cells →
  cells !! idx = Some (VStr title) →
  (∀ j, cells !! j = Some (VStr title) → j = idx) →
  ¬ Forall (λ x, analyze stop_words (cleaner stopwords (py_str x)) = [])
      cells →
  ∃ res cells',
    initialize_frame_for_recommender stopwords stop_words
      df title column top_n false h
    = (<[df := Pandas.reset_index
                 (Pandas.setitem d "cleaned_column"
                    (cleaned_cells stopwords cells))]> h, Ok res)
    ∧ nrows res = Z.to_nat top_n `min` (nrows d - 1)
    ∧ Pandas.getitem res column = Ok cells'
    ∧ (analyze stop_words (cleaner stopwords title) ≠ [] →
       (∀ j x, j ≠ idx → cells !! j = Some x →
               terms_differ stop_words (cleaner stopwords (py_str x))
                 (cleaner stopwords title)) →
       VStr title ∉ cells').
Proof.
  intros Htop Hd Hwf HID HDl Hcol Hcells Hidx Huniq Hterm.
  rewrite (initialize_existing stopwords stop_words h df d title column
             top_n cells Hd Hcells).
  set (cleaned := cleaned_cells stopwords cells).
  set (w := Pandas.setitem d "cleaned_column" cleaned).
  set (docs := (λ x, cleaner stopwords (py_str x)) <$> cells).
  pose proof (getitem_length _ _ _ Hwf Hcells) as Hclen.
  assert (wf_frame w) as Hwfw.
  { apply wf_setitem; [done|]. unfold cleaned, cleaned_cells.
    by rewrite length_fmap. }
  assert (nrows w = nrows d) as Hnw by apply nrows_setitem.
  pose proof (cleaned_vocabulary cells Hterm) as Hvoc. fold docs in Hvoc.
  set (X := (λ doc, normalize (tfidf_row stop_words
                                 (vocabulary stop_words docs) docs doc))
              <$> docs).
  rewrite run_bind.
  rewrite (dataframe_column_to_cosine_sim_ok stop_words (<[df:=w]> h) df w
             "cleaned_column" cleaned docs X);
    [|apply lookup_insert_eq|apply getitem_setitem_eq
     |apply mapM_as_string_cleaned|by apply fit_transform_eq].
  assert (∀ label, label ∈ columns d → label ∈ columns w) as Hin.
  { intros label Hl. unfold w. rewrite columns_setitem.
    case_decide; [done|]. apply elem_of_app. by left. }
  assert (length X = length cells) as HlenX.
  { unfold X, docs. by rewrite !length_fmap. }
  destruct (lookup_lt_is_Some_2 (linear_kernel X X) idx) as [scores Hscores].
  { rewrite length_linear_kernel, HlenX. by eapply lookup_lt_Some. }
  destruct (get_recommendations_returns (<[df:=w]> h) df w title
              (linear_kernel X X) column top_n cells idx scores)
    as (res & cells' & Hrec & Hn & _ & Hres & Hself);
    [done|apply lookup_insert_eq|done|auto..| |done|done|done| |].
  - unfold w. by rewrite getitem_setitem_ne.
  - apply linear_kernel_row in Hscores. lia.
  - rewrite Hrec, insert_insert_eq. exists res, cells'.
    split_and!; [done|by rewrite Hn, Hnw|done|].
    intros Hne Hdiff. apply Hself.
    apply (similarity_first_in_rank stop_words docs idx
             (cleaner stopwords title)); [|done| |done].
    + unfold docs. by rewrite list_lookup_fmap, Hidx.
    + intros j doc' Hj. unfold docs. rewrite list_lookup_fmap.
      destruct (cells !! j) as [x|] eqn:Hx; simpl; [|done].
      intros [= <-]. eapply Hdiff; [|done]. lia.
Qed.

(** X16. A call for an existing title never raises the insufficient-input
    error nor the duplicate-input error: all it raises is the rejection of
    [top_n] or an exception of a library. *)
Theorem existing_title_skips_guards h df title column top_n e :
  (initialize_frame_for_recommender stopwords stop_words
     df title column top_n false h).2 = Raise e →
  e = WrongTopN ∨ library_error e.
Proof.
  destruct (initialize_frame_for_recommender _ _ _ _ _ _ _ h)
    as [h' r] eqn:Hrun.
  simpl. intros ->. revert Hrun.
  unfold initialize_frame_for_recommender.
  rewrite run_bind. unfold mret at 1, M_ret at 1.
  cbn [Text.is_empty negb andb].
  intros Hrun.
  match type of Hrun with
  | ?m h = _ =>
      assert (raises_only m (λ e, e = WrongTopN ∨ library_error e)) as Hr
  end; [|by apply Hr in Hrun].
  raises_all (λ e (H : library_error e),
                (or_intror H : e = WrongTopN ∨ library_error e)).
  apply get_recommendations_raises.
Qed.

(** X17. [top_n] is checked last.  A call for an existing title with a
    [top_n] that is rejected has by then added the cleaned column to the
    table of the caller; and when no cleaned text keeps a term the error is
    that of the vectorizer, not the rejection of [top_n]. *)
Theorem top_n_checked_last h df d title column top_n cells :
  h !! df = Some d →
  Pandas.getitem d column = Ok cells →
  ¬ (1 < top_n < 20)%Z →
  let run := initialize_frame_for_recommender stopwords stop_words
               df title column top_n false h in
  let no_term :=
    Forall (λ x, analyze stop_words (cleaner stopwords (py_str x)) = [])
      cells in
  run.1 = <[df := Pandas.setitem d "cleaned_column"
                    (cleaned_cells stopwords cells)]> h
  ∧ (¬ no_term → run.2 = Raise WrongTopN)
  ∧ (no_term → run.2 = Raise EmptyVocabulary).
Proof.
  intros Hd Hcells Htop. simpl.
  rewrite (initialize_existing stopwords stop_words h df d title column
             top_n cells Hd Hcells).
  set (cleaned := cleaned_cells stopwords cells).
  set (w := Pandas.setitem d "cleaned_column" cleaned).
  set (docs := (λ x, cleaner stopwords (py_str x)) <$> cells).
  rewrite run_bind.
  destruct (decide (vocabulary stop_words docs = [])) as [Hv|Hv].
  - assert (dataframe_column_to_cosine_sim stop_words df "cleaned_column"
              (<[df:=w]> h) = (<[df:=w]> h, Raise EmptyVocabulary)) as ->.
    { unfold dataframe_column_to_cosine_sim.
      cbv [mbind M_bind mret M_ret lift load].
      rewrite lookup_insert_eq. unfold w. rewrite getitem_setitem_eq.
      unfold cleaned. rewrite mapM_as_string_cleaned. fold docs.
      unfold fit_transform. by rewrite Hv. }
    simpl. split_and!; [done| |done].
    intros Hne. exfalso. apply Hne.
    apply vocabulary_nil in Hv. unfold docs in Hv.
    by rewrite Forall_fmap in Hv.
  - erewrite (dataframe_column_to_cosine_sim_ok stop_words (<[df:=w]> h) df w
                "cleaned_column" cleaned docs);
      [|apply lookup_insert_eq|apply getitem_setitem_eq
       |apply mapM_as_string_cleaned|by apply fit_transform_eq].
    unfold get_recommendations.
    assert (negb (bool_decide (top_n < 20)%Z && bool_decide (top_n > 1)%Z)
            = true) as ->.
    { apply negb_true_iff, andb_false_iff.
      destruct (decide (top_n < 20)%Z).
      + right. apply bool_decide_false. lia.
      + left. by apply bool_decide_false. }
    simpl. split_and!; [done..|].
    intros Hno. exfalso. apply Hv. apply vocabulary_nil.
    unfold docs. by rewrite Forall_fmap.
Qed.

(** X18. A call for a new query, on a well-formed table of N rows with
    [column] the second of its four columns, for a title whose cleaned
    text has two tokens or more, keeps a term and differs in a term from
    the cleaned text of every row: it returns min(top_n, N) rows, all of
    them rows of the table and none the row of the query. *)
Theorem new_query_recommends h df d title column top_n cells :
  (1 < top_n < 20)%Z →
  h !! df = Some d →
  wf_frame d →
  length (columns d) = 4 →
  position d column = Some 1 →
  "ID" ∈ columns d → "Deadline" ∈ columns d →
  column ≠ "cleaned_column" →
  Pandas.getitem d column = Ok cells →
  2 ≤ length (Text.split (cleaner stopwords title)) →
  analyze stop_words (cleaner stopwords title) ≠ [] →
  (∀ x, x ∈ cells →
        terms_differ stop_words (cleaner stopwords (py_str x))
          (cleaner stopwords title)) →
  ∃ h' res cells',
    initialize_frame_for_recommender stopwords stop_words
      df title column top_n true h = (h', Ok res)
    ∧ nrows res = Z.to_nat top_n `min` nrows d
    ∧ Pandas.getitem res column = Ok cells'
    ∧ (VStr title ∉ cells')
    ∧ Forall (λ v, v ∈ cells) cells'.
Proof.
  intros Htop Hd Hwf H4 Hpos HID HDl Hcol Hcells Hlong Hne Hdiff.
  assert (VStr (cleaner stopwords title) ∉ cleaned_cells stopwords cells)
    as Hdup.
  { unfold cleaned_cells. intros (x & Heq & Hx)%list_elem_of_fmap.
    destruct (Hdiff x Hx) as (t & [[Ht Ht']|[Ht Ht']]);
      injection Heq as Heq; rewrite Heq in *; done. }
  unfold columns in H4. rewrite length_fmap in H4.
  destruct (initialize_new_query stopwords stop_words
              h df d title column top_n 1 cells)
    as (v & w & Hv & Hw & Hrun); [done..|lia|].
  unfold query_row in Hv. simpl in Hv. simplify_eq.
  rewrite Hrun. clear Hrun. simpl.
  rewrite bool_decide_false by done.
  set (l := fresh (dom h)).
  set (wq := with_query_row d title).
  set (cleaned := cleaned_cells stopwords (cells ++ [VStr title])).
  set (w := Pandas.setitem wq "cleaned_column" cleaned).
  set (docs := (λ x, cleaner stopwords (py_str x)) <$> (cells ++ [VStr title])).
  assert (wf_frame wq) as Hwfq by by apply wf_with_query_row.
  assert (nrows wq = nrows d + 1) as Hnq by apply nrows_with_query_row.
  assert (Pandas.getitem wq column = Ok (cells ++ [VStr title])) as Hq.
  { destruct (getitem_with_query_row d title column 1 cells)
      as (v & Hv & Hg); [done..|].
    unfold query_row in Hv. simpl in Hv. by simplify_eq. }
  assert (wf_frame w) as Hwfw.
  { apply wf_setitem; [done|]. unfold cleaned, cleaned_cells.
    rewrite length_fmap. by eapply getitem_length. }
  assert (nrows w = nrows d + 1) as Hnw.
  { unfold w. by rewrite nrows_setitem. }
  pose proof (getitem_length _ _ _ Hwf Hcells) as Hclen.
  assert (docs !! length cells = Some (cleaner stopwords title)) as Hlast.
  { unfold docs. rewrite list_lookup_fmap, lookup_app_r, Nat.sub_diag by done.
    done. }
  assert (vocabulary stop_words docs ≠ []) as Hvoc.
  { intros Hv. apply vocabulary_nil in Hv. apply Hne.
    eapply Forall_forall in Hv; [done|]. by eapply list_elem_of_lookup_2. }
  set (X := (λ doc, normalize (tfidf_row stop_words
                                 (vocabulary stop_words docs) docs doc))
              <$> docs).
  assert (length X = length cells + 1) as HlenX.
  { unfold X, docs. rewrite !length_fmap, length_app. done. }
  rewrite run_bind.
  rewrite (dataframe_column_to_cosine_sim_ok stop_words (<[l:=w]> h) l w
             "cleaned_column" cleaned docs X);
    [|apply lookup_insert_eq|apply getitem_setitem_eq
     |apply mapM_as_string_cleaned|by apply fit_transform_eq].
  assert (∀ label, label ∈ columns d → label ∈ columns w) as Hin.
  { intros label Hl. unfold w. rewrite columns_setitem.
    unfold wq. rewrite columns_with_query_row by done.
    case_decide; [done|]. apply elem_of_app. by left. }
  destruct (lookup_lt_is_Some_2 (linear_kernel X X) (length cells))
    as [scores Hscores].
  { rewrite length_linear_kernel. lia. }
  assert (∀ j, (cells ++ [VStr title]) !! j = Some (VStr title)
               → j = length cells) as Huniq.
  { intros j Hj. destruct (decide (j < length cells)) as [Hlt|Hge].
    - rewrite lookup_app_l in Hj by done. exfalso. apply Hdup.
      unfold cleaned_cells. apply list_elem_of_fmap. eexists.
      split; [|by eapply list_elem_of_lookup_2]. done.
    - apply lookup_lt_Some in Hj. rewrite length_app in Hj. simpl in Hj. lia. }
  destruct (get_recommendations_picks (<[l:=w]> h) l w title
              (linear_kernel X X) column top_n
              (cells ++ [VStr title]) (length cells) scores)
    as (res & cells' & Hrec & Hn & Hres & Hpick);
    [done|apply lookup_insert_eq|done|auto..| | |done|done| |].
  - unfold w. by rewrite getitem_setitem_ne.
  - by rewrite lookup_app_r, Nat.sub_diag.
  - apply linear_kernel_row in Hscores. lia.
  - rewrite Hrec. eexists _, res, cells'.
    assert (length cells ∉ item_indices scores top_n) as Hnot.
    { apply item_indices_not_first.
      apply (similarity_first_in_rank stop_words docs (length cells)
               (cleaner stopwords title)); [done..| |done].
      intros j doc' Hj. unfold docs.
      rewrite list_lookup_fmap, lookup_app_l by done.
      destruct (cells !! j) as [x|] eqn:Hx; simpl; [|done].
      intros [= <-]. apply Hdiff. by eapply list_elem_of_lookup_2. }
    assert (Forall (λ v, v ∈ cells) cells') as Hfrom.
    { apply Forall_forall. intros v (a & Ha)%list_elem_of_lookup.
      destruct (Forall2_lookup_r _ _ _ _ _ Hpick Ha) as (p & Hp & Hv).
      destruct (decide (p < length cells)) as [Hlt|Hge].
      - rewrite lookup_app_l in Hv by done. by eapply list_elem_of_lookup_2.
      - exfalso. apply Hnot.
        assert (p = length cells) as <-.
        { apply lookup_lt_Some in Hv. rewrite length_app in Hv.
          simpl in Hv. lia. }
        by eapply list_elem_of_lookup_2. }
    split_and!; [done| |done| |done].
    + rewrite Hn, Hnw. f_equal. lia.
    + intros Hin'. eapply Forall_forall in Hfrom; [|exact Hin'].
      apply Hdup. unfold cleaned_cells. apply list_elem_of_fmap.
      by exists (VStr title).
Qed.

End PreparerMore.

(** * The theorems at work on the tables *)

Section Witnesses.
Import Notions Example Sklearn Kernel Weights WorkingTable.

Lemma recommendations_count_and_self_witness :
  ∃ res cells',
    get_recommendations "plan holiday party" unrelated_sim 0 "Task" 2
      (store_of reworded)
    = (<[0 := Pandas.reset_index reworded]> (store_of reworded), Ok res)
    ∧ nrows res = Z.to_nat 2 `min` (nrows reworded - 1)
    ∧ nrows res ≤ Z.to_nat 2
    ∧ Pandas.getitem res "Task" = Ok cells'
    ∧ (first_in_rank [0; 0; 1]%R 2 → VStr "plan holiday party" ∉ cells').
Proof.
  apply (recommendations_count_and_self (store_of reworded) 0 reworded
           "plan holiday party" unrelated_sim "Task" 2
           [VStr "fix the server outage"; VStr "Fix the server outage!";
            VStr "plan holiday party"] 2 [0; 0; 1]%R).
  - lia.
  - reflexivity.
  - split; [by_computation|by repeat constructor].
  - by_computation.
  - by_computation.
  - reflexivity.
  - reflexivity.
  - intros [|[|[|j]]]; simpl; intros Hj; [discriminate..|reflexivity|].
    by destruct j.
  - reflexivity.
  - reflexivity.
Defined.

Lemma same_task_iff_witness :
  (initialize_frame_for_recommender some_stopwords some_stopwords
     0 "Fix the server outage!" "Task" 2 true (store_of tasks)).2
  = Raise (SameTask "Fix the server outage!")
  ↔ ∃ x, x ∈ [VStr "fix the server outage";
               VStr "server outage repair needed";
               VStr "plan holiday party"]
         ∧ cleaner some_stopwords (py_str x)
           = cleaner some_stopwords "Fix the server outage!".
Proof.
  apply (same_task_iff some_stopwords some_stopwords (store_of tasks) 0 tasks
           "Fix the server outage!" "Task" 2).
  - reflexivity.
  - reflexivity.
  - reflexivity.
  - by_computation.
Defined.

Lemma key_not_found_iff_witness :
  let r := (get_recommendations "plan holiday party" unrelated_sim 0 "Task" 2
              (store_of tasks)).2 in
  let cells := [VStr "fix the server outage";
                VStr "server outage repair needed";
                VStr "plan holiday party"] in
  (VStr "plan holiday party" ∉ cells
   → r = Raise (KeyError "plan holiday party"))
  ∧ (VStr "plan holiday party" ∈ cells → ∀ key, r ≠ Raise (KeyError key)).
Proof.
  apply (key_not_found_iff (store_of tasks) 0 tasks "plan holiday party"
           unrelated_sim "Task" 2).
  - lia.
  - reflexivity.
  - split; [by_computation|by repeat constructor].
  - by_computation.
  - by_computation.
  - reflexivity.
Defined.

Lemma new_query_keeps_caller_frame_witness :
  (initialize_frame_for_recommender some_stopwords some_stopwords
     0 "urgent server crash needs repair" "Task" 2 true (store_of tasks)).1
    !! 0 = Some tasks.
Proof.
  apply (new_query_keeps_caller_frame some_stopwords some_stopwords
           (store_of tasks) 0 tasks).
  reflexivity.
Defined.

Lemma task_similarity :
  dataframe_column_to_cosine_sim some_stopwords 0 "Task" (store_of tasks)
  = (store_of tasks,
     Ok (task_cells, task_tfidf, linear_kernel task_tfidf task_tfidf)).
Proof.
  apply (dataframe_column_to_cosine_sim_ok some_stopwords (store_of tasks)
           0 tasks "Task" task_cells task_docs).
  - reflexivity.
  - reflexivity.
  - reflexivity.
  - apply fit_transform_eq. by_computation.
Qed.

Lemma cosine_sim_symmetric_witness :
  dataframe_column_to_cosine_sim some_stopwords 0 "Task" (store_of tasks)
  = (store_of tasks,
     Ok (task_cells, task_tfidf, linear_kernel task_tfidf task_tfidf))
  ∧ ∀ i j, cell (linear_kernel task_tfidf task_tfidf) i j
           = cell (linear_kernel task_tfidf task_tfidf) j i.
Proof.
  split; [exact task_similarity|].
  exact (cosine_sim_symmetric some_stopwords _ _ _ _ _ _ _ task_similarity).
Defined.

Lemma self_similarity_maximal_witness :
  dataframe_column_to_cosine_sim some_stopwords 0 "Task" (store_of tasks)
  = (store_of tasks,
     Ok (task_cells, task_tfidf, linear_kernel task_tfidf task_tfidf))
  ∧ cell (linear_kernel task_tfidf task_tfidf) 0 0 = Some 1%R
  ∧ ∀ j s, cell (linear_kernel task_tfidf task_tfidf) 0 j = Some s
           → (s <= 1)%R.
Proof.
  split; [exact task_similarity|].
  eapply (self_similarity_maximal some_stopwords _ _ _ _ _ _ _ 0).
  - exact task_similarity.
  - reflexivity.
  - apply (tfidf_row_nonzero _ _ _ _ "fix"); by_computation.
Defined.


End Witnesses.

Section WitnessesMore.
Import Notions Example Sklearn Kernel Weights WorkingTable.

Lemma similarity_of_docs d docs :
  Pandas.getitem d "Task" = Ok (VStr <$> docs) →
  vocabulary some_stopwords docs ≠ [] →
  dataframe_column_to_cosine_sim some_stopwords 0 "Task" (store_of d)
  = (store_of d,
     Ok (VStr <$> docs, tfidf_of docs,
         linear_kernel (tfidf_of docs) (tfidf_of docs))).
Proof.
  intros Hcells Hvoc.
  apply (dataframe_column_to_cosine_sim_ok some_stopwords (store_of d)
           0 d "Task" (VStr <$> docs) docs).
  - reflexivity.
  - exact Hcells.
  - by apply as_string_all.
  - by apply fit_transform_eq.
Qed.

Lemma reworded_similarity :
  dataframe_column_to_cosine_sim some_stopwords 0 "Task" (store_of reworded)
  = (store_of reworded,
     Ok (VStr <$> reworded_docs, tfidf_of reworded_docs,
         linear_kernel (tfidf_of reworded_docs) (tfidf_of reworded_docs))).
Proof. apply similarity_of_docs; [reflexivity|by_computation]. Qed.

Lemma memo_similarity :
  dataframe_column_to_cosine_sim some_stopwords 0 "Task" (store_of memo)
  = (store_of memo,
     Ok (VStr <$> memo_docs, tfidf_of memo_docs,
         linear_kernel (tfidf_of memo_docs) (tfidf_of memo_docs))).
Proof. apply similarity_of_docs; [reflexivity|by_computation]. Qed.

Lemma cleaner_ignores_case_and_punctuation_witness :
  cleaner some_stopwords (Text.lower "Fix the server outage!")
  = cleaner some_stopwords "Fix the server outage!"
  ∧ cleaner some_stopwords (Text.blank_non_alnum "Fix the server outage!")
    = cleaner some_stopwords "Fix the server outage!".
Proof.
  apply (cleaner_ignores_case_and_punctuation some_stopwords
           "Fix the server outage!").
  by_computation.
Defined.

Lemma similarity_needs_a_term_witness :
  let run := dataframe_column_to_cosine_sim some_stopwords 0 "Task"
               (store_of tasks) in
  run.1 = store_of tasks
  ∧ (run.2 = Raise EmptyVocabulary
     ↔ Forall (λ doc, analyze some_stopwords doc = []) task_docs)
  ∧ (¬ Forall (λ doc, analyze some_stopwords doc = []) task_docs →
     ∃ X, run.2 = Ok (VStr <$> task_docs, X, linear_kernel X X)).
Proof.
  apply (similarity_needs_a_term some_stopwords (store_of tasks) 0 tasks
           "Task" task_docs).
  - reflexivity.
  - reflexivity.
  - by_computation.
Defined.

Lemma similarity_shape_witness :
  let cosine_sim := linear_kernel task_tfidf task_tfidf in
  store_of tasks = store_of tasks
  ∧ (∃ d, store_of tasks !! 0 = Some d
          ∧ Pandas.getitem d "Task" = Ok task_cells)
  ∧ length task_tfidf = length task_cells
  ∧ (∃ n, Forall (λ row, length row = n) task_tfidf)
  ∧ length cosine_sim = length task_cells
  ∧ Forall (λ row, length row = length task_cells) cosine_sim.
Proof.
  apply (similarity_shape some_stopwords (store_of tasks) 0 "Task").
  exact task_similarity.
Defined.

Lemma similarity_between_0_and_1_witness :
  ∃ s, cell (linear_kernel task_tfidf task_tfidf) 0 1 = Some s
       ∧ (0 <= s <= 1)%R.
Proof.
  eexists. split; [reflexivity|].
  eapply (similarity_between_0_and_1 some_stopwords (store_of tasks) 0 "Task"
            _ _ _ _ 0 1).
  - exact task_similarity.
  - reflexivity.
Defined.

Lemma similarity_of_text_without_term_witness :
  let cosine_sim := linear_kernel (tfidf_of memo_docs) (tfidf_of memo_docs) in
  1 < length cosine_sim
  ∧ ∀ j s, cell cosine_sim 1 j = Some s → s = 0%R.
Proof.
  eapply (similarity_of_text_without_term some_stopwords (store_of memo) 0
           "Task" _ _ _ _ 1 "not to me").
  - exact memo_similarity.
  - reflexivity.
  - by_computation.
  - by_computation.
Defined.

Lemma similarity_of_disjoint_texts_witness :
  cell (linear_kernel task_tfidf task_tfidf) 0 2 = Some 0%R.
Proof.
  eapply (similarity_of_disjoint_texts some_stopwords (store_of tasks) 0
           "Task" _ _ _ _ 0 2 "fix the server outage" "plan holiday party").
  - exact task_similarity.
  - reflexivity.
  - reflexivity.
  - by_computation.
  - by_computation.
  - apply Forall_forall. by_computation.
Defined.

Lemma similarity_of_same_terms_witness :
  let cosine_sim :=
    linear_kernel (tfidf_of reworded_docs) (tfidf_of reworded_docs) in
  cosine_sim !! 0 = cosine_sim !! 1
  ∧ (analyze some_stopwords "fix the server outage" ≠ []
     → cell cosine_sim 0 1 = Some 1%R).
Proof.
  eapply (similarity_of_same_terms some_stopwords (store_of reworded) 0
           "Task" _ _ _ _ 0 1 "fix the server outage"
           "Fix the server outage!").
  - exact reworded_similarity.
  - reflexivity.
  - reflexivity.
  - by_computation.
  - by_computation.
  - by_computation.
Defined.

Lemma similarity_below_1_witness :
  ∃ s, cell (linear_kernel task_tfidf task_tfidf) 0 1 = Some s ∧ (s < 1)%R.
Proof.
  eexists. split; [reflexivity|].
  eapply (similarity_below_1 some_stopwords (store_of tasks) 0 "Task"
            _ _ _ _ 0 1 "fix the server outage"
            "server outage repair needed" "fix").
  - exact task_similarity.
  - reflexivity.
  - reflexivity.
  - by_computation.
  - by_computation.
  - reflexivity.
Defined.

Lemma recommendations_are_ranked_rows_witness :
  ∃ ps ids' cells' dls',
    (get_recommendations "plan holiday party" unrelated_sim 0 "Task" 2
       (store_of tasks)).2
    = Ok (mkFrame (Z.of_nat <$> ps)
            [("ID", ids'); ("Task", cells'); ("Deadline", dls')])
    ∧ NoDup ps
    ∧ Forall2 (λ p v, [VInt 1; VInt 2; VInt 3] !! p = Some v) ps ids'
    ∧ Forall2 (λ p v, task_cells !! p = Some v) ps cells'
    ∧ Forall2 (λ p v, [VStr "2024-01-01"; VStr "2024-01-02";
                       VStr "2024-01-03"] !! p = Some v) ps dls'
    ∧ ∀ a b pa pb sa sb,
        a < b → ps !! a = Some pa → ps !! b = Some pb →
        [0; 0; 1]%R !! pa = Some sa → [0; 0; 1]%R !! pb = Some sb →
        (sb <= sa)%R.
Proof.
  apply (recommendations_are_ranked_rows (store_of tasks) 0 tasks
           "plan holiday party" unrelated_sim "Task" 2
           [VInt 1; VInt 2; VInt 3] task_cells
           [VStr "2024-01-01"; VStr "2024-01-02"; VStr "2024-01-03"]
           2 [0; 0; 1]%R).
  - lia.
  - reflexivity.
  - split; [by_computation|by repeat constructor].
  - reflexivity.
  - reflexivity.
  - reflexivity.
  - reflexivity.
  - intros [|[|[|j]]]; simpl; intros Hj; [discriminate..|reflexivity|].
    by destruct j.
  - reflexivity.
  - reflexivity.
Defined.

Lemma recommendations_are_the_best_witness :
  ∃ res dropped s0,
    (get_recommendations "plan holiday party" unrelated_sim 0 "Task" 2
       (store_of tasks)).2 = Ok res
    ∧ [0; 0; 1]%R !! dropped = Some s0
    ∧ (Z.of_nat dropped ∉ index res)
    ∧ (∀ q s, [0; 0; 1]%R !! q = Some s → (s <= s0)%R)
    ∧ (∀ q s p sp,
         [0; 0; 1]%R !! q = Some s → q ≠ dropped → Z.of_nat q ∉ index res →
         Z.of_nat p ∈ index res → [0; 0; 1]%R !! p = Some sp → (s <= sp)%R).
Proof.
  apply (recommendations_are_the_best (store_of tasks) 0 tasks
           "plan holiday party" unrelated_sim "Task" 2
           [VInt 1; VInt 2; VInt 3] task_cells
           [VStr "2024-01-01"; VStr "2024-01-02"; VStr "2024-01-03"]
           2 [0; 0; 1]%R).
  - lia.
  - reflexivity.
  - split; [by_computation|by repeat constructor].
  - reflexivity.
  - reflexivity.
  - reflexivity.
  - reflexivity.
  - intros [|[|[|j]]]; simpl; intros Hj; [discriminate..|reflexivity|].
    by destruct j.
  - reflexivity.
  - reflexivity.
Defined.

Lemma get_recommendations_resets_index_witness :
  (get_recommendations "plan holiday party" unrelated_sim 0 "Task" 2
     (store_of tasks)).1
  = if bool_decide (1 < 2 < 20)%Z
    then <[0 := mkFrame (Z.of_nat <$> seq 0 (nrows tasks)) (cols tasks)]>
           (store_of tasks)
    else store_of tasks.
Proof.
  apply (get_recommendations_resets_index (store_of tasks) 0 tasks).
  reflexivity.
Defined.

Lemma missing_id_or_deadline_witness :
  ∃ key,
    get_recommendations "plan holiday party" [[1; 0]; [0; 1]]%R 0 "Task" 2
      (store_of no_deadline)
    = (<[0 := Pandas.reset_index no_deadline]> (store_of no_deadline),
       Raise (KeyError key))
    ∧ key ∈ ["ID"; "Deadline"] ∧ key ∉ columns no_deadline.
Proof.
  apply (missing_id_or_deadline (store_of no_deadline) 0 no_deadline
           "plan holiday party" [[1; 0]; [0; 1]]%R "Task" 2
           [VStr "fix the server outage"; VStr "plan holiday party"]
           1 [0; 1]%R).
  - lia.
  - reflexivity.
  - reflexivity.
  - reflexivity.
  - reflexivity.
  - intros [|[|j]]; simpl; intros Hj; [discriminate|reflexivity|].
    by destruct j.
  - reflexivity.
  - right. by_computation.
Defined.

Lemma title_of_several_rows_witness :
  get_recommendations "fix the server outage" reworded_sim 0 "Task" 2
    (store_of twice)
  = (<[0 := Pandas.reset_index twice]> (store_of twice), Raise AmbiguousTruth).
Proof.
  apply (title_of_several_rows (store_of twice) 0 twice
           "fix the server outage" reworded_sim "Task" 2
           [VStr "fix the server outage"; VStr "plan holiday party";
            VStr "fix the server outage"] 0 2).
  - lia.
  - reflexivity.
  - reflexivity.
  - reflexivity.
  - lia.
  - reflexivity.
  - reflexivity.
  - reflexivity.
  - by repeat constructor.
Defined.

Lemma existing_title_recommends_witness :
  ∃ res cells',
    initialize_frame_for_recommender some_stopwords some_stopwords
      0 "server outage repair needed" "Task" 2 false (store_of tasks)
    = (<[0 := Pandas.reset_index
                (Pandas.setitem tasks "cleaned_column"
                   (cleaned_cells some_stopwords task_cells))]>
         (store_of tasks), Ok res)
    ∧ nrows res = Z.to_nat 2 `min` (nrows tasks - 1)
    ∧ Pandas.getitem res "Task" = Ok cells'
    ∧ (analyze some_stopwords
         (cleaner some_stopwords "server outage repair needed") ≠ [] →
       (∀ j x, j ≠ 1 → task_cells !! j = Some x →
               terms_differ some_stopwords
                 (cleaner some_stopwords (py_str x))
                 (cleaner some_stopwords "server outage repair needed")) →
       VStr "server outage repair needed" ∉ cells').
Proof.
  apply (existing_title_recommends some_stopwords some_stopwords
           (store_of tasks) 0 tasks "server outage repair needed" "Task" 2
           task_cells 1).
  - lia.
  - reflexivity.
  - split; [by_computation|by repeat constructor].
  - by_computation.
  - by_computation.
  - discriminate.
  - reflexivity.
  - reflexivity.
  - intros [|[|[|j]]]; simpl; intros Hj; [discriminate|reflexivity
                                          |discriminate|].
    by destruct j.
  - by_computation.
Defined.

Lemma existing_title_skips_guards_witness :
  KeyError "Summary" = WrongTopN ∨ library_error (KeyError "Summary").
Proof.
  apply (existing_title_skips_guards some_stopwords some_stopwords
           (store_of tasks) 0 "fix the server outage" "Summary" 2).
  reflexivity.
Defined.

Lemma top_n_checked_last_witness :
  let run := initialize_frame_for_recommender some_stopwords some_stopwords
               0 "fix the server outage" "Task" 20 false (store_of tasks) in
  let no_term :=
    Forall (λ x, analyze some_stopwords
                   (cleaner some_stopwords (py_str x)) = []) task_cells in
  run.1 = <[0 := Pandas.setitem tasks "cleaned_column"
                   (cleaned_cells some_stopwords task_cells)]> (store_of tasks)
  ∧ (¬ no_term → run.2 = Raise WrongTopN)
  ∧ (no_term → run.2 = Raise EmptyVocabulary).
Proof.
  apply (top_n_checked_last some_stopwords some_stopwords
           (store_of tasks) 0 tasks "fix the server outage" "Task" 20
           task_cells).
  - reflexivity.
  - reflexivity.
  - lia.
Defined.

Lemma new_query_recommends_witness :
  ∃ h' res cells',
    initialize_frame_for_recommender some_stopwords some_stopwords
      0 "urgent server crash needs repair" "Task" 2 true (store_of tasks)
    = (h', Ok res)
    ∧ nrows res = Z.to_nat 2 `min` nrows tasks
    ∧ Pandas.getitem res "Task" = Ok cells'
    ∧ (VStr "urgent server crash needs repair" ∉ cells')
    ∧ Forall (λ v, v ∈ task_cells) cells'.
Proof.
  apply (new_query_recommends some_stopwords some_stopwords
           (store_of tasks) 0 tasks "urgent server crash needs repair"
           "Task" 2 task_cells).
  - lia.
  - reflexivity.
  - split; [by_computation|by repeat constructor].
  - reflexivity.
  - reflexivity.
  - by_computation.
  - by_computation.
  - discriminate.
  - reflexivity.
  - by_computation.
  - by_computation.
  - intros x Hx. exists "urgent". right. split; [by_computation|].
    revert x Hx. apply Forall_forall. by_computation.
Defined.

End WitnessesMore.
